(** * The OSM monuments CSV to RDF converter (rdf_converter_fixed.py)

    A shallow embedding of the converter's sanitizers, of its column
    mapper and of its row loop, and the properties of the specification
    stated over them.

    Python strings are sequences of Unicode code points; they are modelled
    as lists of code points.  The rdflib graph is a set of triples. *)

From Stdlib Require Import ZArith NArith Ascii String List Bool Lia.
From stdpp Require Import base decidable countable list gmap pretty.

Local Open Scope N_scope.

(** ** Python strings *)

Definition pystr := list N.

(** String literals of this file are UTF-8 byte strings; [py] decodes one
    into the code points of the Python string it denotes. *)
Fixpoint bytes_of_string (s : string) : list N :=
  match s with
  | EmptyString => []
  | String a r => N_of_ascii a :: bytes_of_string r
  end.

Definition cont (b : N) : N := N.land b 63.

Fixpoint utf8_decode (fuel : nat) (bs : list N) : pystr :=
  match fuel with
  | O => []
  | S fuel' =>
    match bs with
    | [] => []
    | b0 :: r0 =>
      if b0 <? 128 then b0 :: utf8_decode fuel' r0
      else if b0 <? 224 then
        match r0 with
        | b1 :: r1 => (N.land b0 31 * 64 + cont b1) :: utf8_decode fuel' r1
        | _ => []
        end
      else if b0 <? 240 then
        match r0 with
        | b1 :: b2 :: r2 =>
          (N.land b0 15 * 4096 + cont b1 * 64 + cont b2) :: utf8_decode fuel' r2
        | _ => []
        end
      else
        match r0 with
        | b1 :: b2 :: b3 :: r3 =>
          (N.land b0 7 * 262144 + cont b1 * 4096 + cont b2 * 64 + cont b3)
            :: utf8_decode fuel' r3
        | _ => []
        end
    end
  end.

Definition py (s : string) : pystr :=
  let bs := bytes_of_string s in utf8_decode (length bs) bs.

(** Code points used by the sanitizers. *)
Definition c_underscore : N := 95.
Definition c_hyphen : N := 45.
Definition c_period : N := 46.
Definition c_comma : N := 44.
Definition c_semicolon : N := 59.
Definition c_newline : N := 10.

(** [str.isspace] on one code point (Py_UNICODE_ISSPACE): the characters
    that [str.strip()] removes. *)
Definition py_isspace (c : N) : bool :=
  ((9 <=? c) && (c <=? 13)) || ((28 <=? c) && (c <=? 32))
  || (c =? 133) || (c =? 160) || (c =? 5760)
  || ((8192 <=? c) && (c <=? 8202))
  || (c =? 8232) || (c =? 8233) || (c =? 8239) || (c =? 8287) || (c =? 12288).

(** [s.lstrip(chars)], [s.rstrip(chars)] and [s.strip(chars)], the set of
    characters given as a predicate. *)
Fixpoint lstrip (p : N -> bool) (s : pystr) : pystr :=
  match s with
  | c :: r => if p c then lstrip p r else s
  | [] => []
  end.

Definition rstrip (p : N -> bool) (s : pystr) : pystr :=
  rev (lstrip p (rev s)).

Definition strip_chars (p : N -> bool) (s : pystr) : pystr :=
  rstrip p (lstrip p s).

Definition py_strip (s : pystr) : pystr := strip_chars py_isspace s.

(** [s.split(sep)] for a one-character separator. *)
Fixpoint split_on (sep : N) (s : pystr) : list pystr :=
  match s with
  | [] => [[]]
  | c :: r =>
    if c =? sep then [] :: split_on sep r
    else match split_on sep r with
         | f :: fs => (c :: f) :: fs
         | [] => [[c]]
         end
  end.

(** ** rdflib terms and graphs *)

(** A [URIRef] is its string.  A [Literal] is its lexical form with an
    optional datatype URI; rdflib compares literals by these. *)
Inductive term :=
  | URIRef (uri : pystr)
  | Literal (lexical : pystr) (datatype : option pystr).

#[global] Instance term_eq_dec : EqDecision term.
Proof. solve_decision. Defined.

#[global] Instance term_countable : Countable term.
Proof.
  refine (inj_countable'
    (fun t => match t with
              | URIRef u => inl u
              | Literal l d => inr (l, d)
              end)
    (fun x => match x with
              | inl u => URIRef u
              | inr (l, d) => Literal l d
              end) _).
  intros []; reflexivity.
Defined.

Definition triple : Type := term * term * term.

Abbreviation Graph := (gset triple).

Definition subject (t : triple) : term := t.1.1.
Definition predicate (t : triple) : term := t.1.2.

(** [Namespace(s)[name]] and [Namespace(s).name]. *)
Definition ns_term (ns : pystr) (name : pystr) : term := URIRef (ns ++ name).

Definition BASE : pystr := py "http://monuments-historiques.fr/resource/".
Definition SCHEMA : pystr := py "http://schema.org/".
Definition WGS84 : pystr := py "http://www.w3.org/2003/01/geo/wgs84_pos#".
Definition DCTERMS : pystr := py "http://purl.org/dc/terms/".
Definition OSM : pystr := py "https://www.openstreetmap.org/".
Definition RDF : pystr := py "http://www.w3.org/1999/02/22-rdf-syntax-ns#".
Definition XSD : pystr := py "http://www.w3.org/2001/XMLSchema#".

Definition RDF_type : term := ns_term RDF (py "type").
Definition SCHEMA_Place : term := ns_term SCHEMA (py "Place").
Definition SCHEMA_category : term := ns_term SCHEMA (py "category").
Definition SCHEMA_name : term := ns_term SCHEMA (py "name").
Definition SCHEMA_addressLocality : term := ns_term SCHEMA (py "addressLocality").
Definition SCHEMA_department : term := ns_term SCHEMA (py "department").
Definition SCHEMA_addressRegion : term := ns_term SCHEMA (py "addressRegion").
Definition SCHEMA_url : term := ns_term SCHEMA (py "url").
Definition WGS84_lat : term := ns_term WGS84 (py "lat").
Definition WGS84_long : term := ns_term WGS84 (py "long").
Definition OSM_osmId : term := ns_term OSM (py "osmId").
Definition DCTERMS_modified : term := ns_term DCTERMS (py "modified").
Definition XSD_decimal : pystr := XSD ++ py "decimal".
Definition XSD_date : pystr := XSD ++ py "date".

(** ** Python values, exceptions *)

(** The values a row field can hold: the reader yields strings and [None];
    the other constructors stand for the non-string values the sanitizers
    test for. *)
Inductive pyval :=
  | PNone
  | PStr (s : pystr)
  | PInt (z : Z)
  | PList (l : list pystr).

(** Truth value of [not value]'s operand. *)
Definition truthy (v : pyval) : bool :=
  match v with
  | PNone => false
  | PStr s => negb (bool_decide (s = []))
  | PInt z => negb (Z.eqb z 0)
  | PList l => negb (bool_decide (l = []))
  end.

Definition is_str (v : pyval) : bool :=
  match v with PStr _ => true | _ => false end.

Inductive exn :=
  | ValueError
  | AttributeError
  | TypeError
  | KeyError
  | RuntimeError.

Inductive result (A : Type) :=
  | Ok (a : A)
  | Raise (e : exn).
Arguments Ok {A} a.
Arguments Raise {A} e.

(** A record of the reader, used through its [get] method only.  A [dict]
    never raises there; [get] of another object may. *)
Record Row := { get : pystr -> result pyval }.

Definition dict_row (d : gmap pystr pyval) : Row :=
  {| get := fun k => Ok (default PNone (d !! k)) |}.

(** ** The sanitizers *)

Definition clean_value (value : pyval) : option pystr :=
  if negb (truthy value) || negb (is_str value) then None
  else match value with
       | PStr s =>
         let value := py_strip s in
         if bool_decide (value = []) then None else Some value
       | _ => None
       end.

Definition ascii_alnum (c : N) : bool :=
  ((48 <=? c) && (c <=? 57)) || ((65 <=? c) && (c <=? 90))
  || ((97 <=? c) && (c <=? 122)).

(** [re.sub(r'_+', '_', s)]: every maximal run of underscores becomes one
    underscore. *)
Fixpoint sub_underscores (s : pystr) : pystr :=
  match s with
  | [] => []
  | c :: r =>
    if c =? c_underscore then
      match r with
      | c' :: _ => if c' =? c_underscore then sub_underscores r
                   else c :: sub_underscores r
      | [] => [c]
      end
    else c :: sub_underscores r
  end.

Definition is_underscore (c : N) : bool := c =? c_underscore.

(** [try: body except (ValueError, AttributeError): pass], followed by the
    statement after it, which returns [dflt]. *)
Definition except_value_attribute {A : Type} (body : result A) (dflt : A)
  : result A :=
  match body with
  | Ok a => Ok a
  | Raise ValueError | Raise AttributeError => Ok dflt
  | Raise e => Raise e
  end.

(** The mapper and the row loop mutate the graph and may raise: a
    computation takes the graph and returns the graph it leaves, together
    with its value or the exception it raised. *)
Definition M (A : Type) : Type := Graph -> Graph * result A.

Definition ret {A : Type} (a : A) : M A := fun g => (g, Ok a).

Definition bind {A B : Type} (m : M A) (k : A -> M B) : M B :=
  fun g =>
    match m g with
    | (g', Ok a) => k a g'
    | (g', Raise e) => (g', Raise e)
    end.

Definition lift {A : Type} (r : result A) : M A := fun g => (g, r).

(** [g.add(t)] *)
Definition add (t : triple) : M unit := fun g => ({[ t ]} ∪ g, Ok tt).

Notation "x <- m ;; k" := (bind m (fun x => k))
  (at level 90, m at level 89, k at level 90, right associativity).
Notation "m ;;; k" := (bind m (fun _ => k))
  (at level 90, k at level 90, right associativity).

(** [if o: body] for [o] a string or [None]. *)
Definition when_str (o : option pystr) (body : pystr -> M unit) : M unit :=
  match o with
  | Some (c :: s) => body (c :: s)
  | _ => ret tt
  end.

Record State := {
  graph : Graph;
  success_count : Z;
  errors_count : Z
}.

Definition str_of_int (z : Z) : pystr := bytes_of_string (pretty z).

(** [limit and idx > limit] *)
Definition limit_reached (limit : option Z) (idx : Z) : bool :=
  match limit with
  | None => false
  | Some n => negb (Z.eqb n 0) && Z.ltb n idx
  end.

(** ** The sanitizer as the specification words it

    Every maximal run of characters outside [safe] becomes one
    underscore. *)
Fixpoint replace_runs (safe : N -> bool) (s : pystr) : pystr :=
  match s with
  | [] => []
  | c :: r =>
    if safe c then c :: replace_runs safe r
    else match r with
         | c' :: _ => if safe c' then c_underscore :: replace_runs safe r
                      else replace_runs safe r
         | [] => [c_underscore]
         end
  end.

(** Steps (a) to (e) of the specification's [safe_uri], over a class of
    safe characters. *)
Definition spec_token (safe : N -> bool) (identifier : pystr) : pystr :=
  let a := py_strip identifier in
  let b := replace_runs safe a in
  let c := sub_underscores b in
  let d := strip_chars is_underscore c in
  if bool_decide (d = []) then py "unknown" else d.

(** ASCII letters, ASCII digits, hyphen, underscore and period. *)
Definition ascii_safe (c : N) : bool :=
  ascii_alnum c || (c =? c_hyphen) || (c =? c_underscore) || (c =? c_period).

(** A string with no underscore at either end and no two underscores in a
    row. *)
Fixpoint no_double_underscore (s : pystr) : bool :=
  match s with
  | c :: r =>
    match r with
    | c' :: _ => negb (is_underscore c && is_underscore c')
                 && no_double_underscore r
    | [] => true
    end
  | [] => true
  end.

Definition plain_underscores (s : pystr) : bool :=
  negb (is_underscore (hd 0 s)) && negb (is_underscore (hd 0 (rev s)))
  && no_double_underscore s.

(** No character of the set [p] at either end of [s]. *)
Definition clean_ends (p : N -> bool) (s : pystr) : Prop :=
  (forall c r, s = c :: r -> p c = false)
  /\ (forall c r, s = r ++ [c] -> p c = false).

(** ** The row reader

    [csv.DictReader(f, delimiter=';')] on a text without quote characters
    and with line feeds as line ends: the first line names the columns,
    empty lines are skipped, a short row has [None] in the columns it
    lacks, and what a long row has beyond the columns is kept under the
    key [None], which no lookup by column name reads. *)
Definition csv_record (line : pystr) : list pystr :=
  if bool_decide (line = []) then [] else split_on c_semicolon line.

Definition zip_row (fieldnames row : list pystr) : gmap pystr pyval :=
  let d := foldl (fun d kv => <[kv.1 := PStr kv.2]> d) ∅ (zip fieldnames row) in
  foldl (fun d k => <[k := PNone]> d) d (drop (length row) fieldnames).

Definition dict_reader (text : pystr) : list Row :=
  match map csv_record (split_on c_newline text) with
  | [] => []
  | fieldnames :: records =>
    map (fun r => dict_row (zip_row fieldnames r))
        (filter (fun r => r ≠ []) records)
  end.

(** ** Closed instances for the examples *)

(** [str.isalnum] on U+0080..U+00FF as the Unicode database has it
    (feminine and masculine ordinals, superscript digits, micro sign,
    vulgar fractions, and the letters), and false above. *)
Definition latin1_alnum (c : N) : bool :=
  (c =? 170) || (c =? 178) || (c =? 179) || (c =? 181) || (c =? 185)
  || (c =? 186) || ((188 <=? c) && (c <=? 190))
  || ((192 <=? c) && (c <=? 214)) || ((216 <=? c) && (c <=? 246))
  || ((248 <=? c) && (c <=? 255)).

Definition is_digit (c : N) : bool := (48 <=? c) && (c <=? 57).

(** A reader of plain decimal numerals (digits, or digits, a period and
    digits) standing for [float]; the float is kept as its numeral, which
    is also what [str] prints for the numerals of the examples. *)
Definition sample_float (s : pystr) : option pystr :=
  match split_on c_period s with
  | [i] => if bool_decide (i ≠ []) && forallb is_digit i then Some s else None
  | [i; f] =>
    if bool_decide (i ≠ []) && bool_decide (f ≠ [])
       && forallb is_digit i && forallb is_digit f
    then Some s else None
  | _ => None
  end.

Definition sample_str (x : pystr) : pystr := x.

(** The lexical form kept for the dates of the examples, which are written
    in the canonical form, and for texts that are not dates. *)
Definition sample_date (s : pystr) : pystr := s.

(** ** The example file of the specification *)

Definition example_header : pystr :=
  py "Type;Nom;Commune;Département;Région;OSM Point;OSM Id;OSM URL;OSM Date mise à jour".

Definition example_line : pystr :=
  py "memorial;Monument X;Paris;Paris;Île-de-France;48.97, 5.51;12345;http://osm.org/12345;2020-01-01".

Definition example_csv : pystr :=
  example_header ++ [c_newline] ++ example_line ++ [c_newline].

Definition example_record : gmap pystr pyval :=
  zip_row (split_on c_semicolon example_header)
          (split_on c_semicolon example_line).

Definition example_subject : term := URIRef (BASE ++ py "osm_12345").

(** The triples the specification lists for the example, the two
    coordinates by their lexical forms. *)
Definition example_triples : list triple :=
  [ (example_subject, RDF_type, SCHEMA_Place);
    (example_subject, SCHEMA_category, URIRef (SCHEMA ++ py "memorial"));
    (example_subject, SCHEMA_name, Literal (py "Monument X") None);
    (example_subject, SCHEMA_addressLocality, Literal (py "Paris") None);
    (example_subject, SCHEMA_department, Literal (py "Paris") None);
    (example_subject, SCHEMA_addressRegion, Literal (py "Île-de-France") None);
    (example_subject, WGS84_lat, Literal (py "48.97") (Some XSD_decimal));
    (example_subject, WGS84_long, Literal (py "5.51") (Some XSD_decimal));
    (example_subject, OSM_osmId, Literal (py "12345") None);
    (example_subject, SCHEMA_url, URIRef (py "http://osm.org/12345"));
    (example_subject, DCTERMS_modified,
       Literal (py "2020-01-01") (Some XSD_date)) ].

(** The example record with an OSM Point that has no comma. *)
Definition one_number_record : gmap pystr pyval :=
  <[py "OSM Point" := PStr (py "48.97")]> example_record.

(** A record of the example's columns whose fields are empty or blank. *)
Definition blank_record : gmap pystr pyval :=
  zip_row (split_on c_semicolon example_header)
          (split_on c_semicolon (py ";; ;;;   ;")).

(** A record that has the OSM Id of the example, padded, and nothing
    else. *)
Definition id_only_record : gmap pystr pyval :=
  {[ py "OSM Id" := PStr (py " 12345 ") ]}.

(** ** Reading computations *)

(** [m] adds the triples [l] and ends with [r], whatever the graph
    holds. *)
Definition emits {A : Type} (m : M A) (l : list triple) (r : result A) : Prop :=
  forall g, m g = (list_to_set l ∪ g, r).

(** [m] keeps the property [P] of the graph, whether it returns or
    raises. *)
Definition preserves {A : Type} (P : Graph -> Prop) (m : M A) : Prop :=
  forall g, P g -> P (m g).1.

Definition has_lat (g : Graph) (s : term) : Prop :=
  exists o, (s, WGS84_lat, o) ∈ g.

Definition has_long (g : Graph) (s : term) : Prop :=
  exists o, (s, WGS84_long, o) ∈ g.

(** Every subject has a latitude exactly when it has a longitude. *)
Definition geo_paired (g : Graph) : Prop :=
  forall s, has_lat g s <-> has_long g s.

(** The triples on the two coordinate predicates. *)
Definition is_geo (t : triple) : bool :=
  bool_decide (predicate t = WGS84_lat) || bool_decide (predicate t = WGS84_long).

(** The columns the mapper reads. *)
Definition mapped_columns : list pystr :=
  [ py "Type"; py "Nom"; py "Commune"; py "Département"; py "Région";
    py "OSM Point"; py "OSM Id"; py "OSM URL"; py "OSM Date mise à jour" ].

(** A record object whose [get] answers for the OSM Id and raises for any
    other key. *)
Definition failing_row : Row :=
  {| get := fun k => if bool_decide (k = py "OSM Id") then Ok (PStr (py "7"))
                     else Raise AttributeError |}.

(** The predicates of the column rules; with [rdf:type] they are the
    predicates of the output. *)
Definition mapped_predicates : list term :=
  [ SCHEMA_category; SCHEMA_name; SCHEMA_addressLocality; SCHEMA_department;
    SCHEMA_addressRegion; WGS84_lat; WGS84_long; OSM_osmId; SCHEMA_url;
    DCTERMS_modified ].

(** A resource of the base namespace. *)
Definition under_base (t : term) : Prop :=
  exists tok, tok <> [] /\ t = URIRef (BASE ++ tok).

(** The triples the converter can add: on a resource of the base
    namespace, either its type [schema:Place] or one of the mapped
    predicates. *)
Definition output_triple (t : triple) : Prop :=
  under_base (subject t)
  /\ ((predicate t = RDF_type /\ t.2 = SCHEMA_Place)
      \/ predicate t ∈ mapped_predicates).

Definition output_graph (g : Graph) : Prop :=
  forall t, t ∈ g -> output_triple t.

(** The triples on the predicate [p]. *)
Definition on_predicate (p : term) (t : triple) : bool :=
  bool_decide (predicate t = p).

(** Turns a boolean fact over code points into an arithmetic one. *)
Ltac to_arith H :=
  repeat first
    [ rewrite orb_true_iff in H | rewrite andb_true_iff in H
    | rewrite N.leb_le in H | rewrite N.eqb_eq in H
    | rewrite N.ltb_lt in H ].

Section Converter.

(** [str.isalnum] on the code points from 128 on (Py_UNICODE_ISALNUM),
    which the interpreter reads from its Unicode database. *)
Variable uni_alnum : N -> bool.

(** Python floats: [float(s)] on a string ([None] where it raises
    [ValueError]) and [str(x)] on a float. *)
Context {float : Type}.
Variable py_float : pystr -> option float.
Variable float_str : float -> pystr.

(** The lexical form rdflib keeps for [Literal(s, datatype=XSD.date)] on a
    string [s]: the canonical form of the date when [s] is read as one,
    and [s] itself otherwise. *)
Variable date_lexical : pystr -> pystr.

(** [\w] of a [str] pattern. *)
Definition is_word (c : N) : bool :=
  if c <? 128 then ascii_alnum c || (c =? c_underscore) else uni_alnum c.

(** The class [[\w\-_.]]. *)
Definition in_class (c : N) : bool :=
  is_word c || (c =? c_hyphen) || (c =? c_underscore) || (c =? c_period).

(** [re.sub(r'[^\w\-_.]', '_', s)] *)
Definition sub_unsafe (s : pystr) : pystr :=
  map (fun c => if in_class c then c else c_underscore) s.

(** The token [safe_uri] appends to the namespace. *)
Definition safe_uri_token (identifier : pystr) : pystr :=
  let clean_id := py_strip identifier in
  let clean_id := sub_unsafe clean_id in
  let clean_id := sub_underscores clean_id in
  let clean_id := strip_chars is_underscore clean_id in
  if bool_decide (clean_id = []) then py "unknown" else clean_id.

(** Both branches of the [isinstance] test build the URI of the
    namespace string followed by the token. *)
Definition safe_uri (base_ns : pystr) (identifier : pystr) : term :=
  URIRef (base_ns ++ safe_uri_token identifier).

Definition float_call (s : pystr) : result float :=
  match py_float s with
  | Some x => Ok x
  | None => Raise ValueError
  end.

(** The pair [(None, None)] is [None] here. *)
Definition parse_coordinates (coord_string : pyval)
  : result (option (float * float)) :=
  if negb (truthy coord_string) || negb (is_str coord_string) then Ok None
  else
    match coord_string with
    | PStr s =>
      except_value_attribute
        (let parts := split_on c_comma s in
         match parts with
         | [p0; p1] =>
           match float_call (py_strip p0) with
           | Ok lat =>
             match float_call (py_strip p1) with
             | Ok lon => Ok (Some (lat, lon))
             | Raise e => Raise e
             end
           | Raise e => Raise e
           end
         | _ => Ok None
         end)
        None
    | _ => Ok None
    end.

(** [Literal(x, datatype=d)] for a float [x]: the lexical form is
    [str(x)]. *)
Definition float_literal (x : float) (d : pystr) : term :=
  Literal (float_str x) (Some d).

Definition map_csv_to_rdf (row : Row) (monument_uri : term) : M unit :=
  v <- lift (get row (py "Type")) ;;
  when_str (clean_value v) (fun monument_type =>
    add (monument_uri, SCHEMA_category, safe_uri SCHEMA monument_type)) ;;;
  v <- lift (get row (py "Nom")) ;;
  when_str (clean_value v) (fun nom =>
    add (monument_uri, SCHEMA_name, Literal nom None)) ;;;
  v <- lift (get row (py "Commune")) ;;
  when_str (clean_value v) (fun commune =>
    add (monument_uri, SCHEMA_addressLocality, Literal commune None)) ;;;
  v <- lift (get row (py "Département")) ;;
  when_str (clean_value v) (fun departement =>
    add (monument_uri, SCHEMA_department, Literal departement None)) ;;;
  v <- lift (get row (py "Région")) ;;
  when_str (clean_value v) (fun region =>
    add (monument_uri, SCHEMA_addressRegion, Literal region None)) ;;;
  v <- lift (get row (py "OSM Point")) ;;
  when_str (clean_value v) (fun osm_point =>
    c <- lift (parse_coordinates (PStr osm_point)) ;;
    match c with
    | Some (lat, lon) =>
      add (monument_uri, WGS84_lat, float_literal lat XSD_decimal) ;;;
      add (monument_uri, WGS84_long, float_literal lon XSD_decimal)
    | None => ret tt
    end) ;;;
  v <- lift (get row (py "OSM Id")) ;;
  when_str (clean_value v) (fun osm_id =>
    add (monument_uri, OSM_osmId, Literal osm_id None)) ;;;
  v <- lift (get row (py "OSM URL")) ;;
  when_str (clean_value v) (fun osm_url =>
    add (monument_uri, SCHEMA_url, URIRef osm_url)) ;;;
  v <- lift (get row (py "OSM Date mise à jour")) ;;
  when_str (clean_value v) (fun osm_date =>
    add (monument_uri, DCTERMS_modified,
         Literal (date_lexical osm_date) (Some XSD_date))).

(** The identifier of a row: [f"osm_{osm_id}"] or [f"monument_{idx}"]. *)
Definition monument_id (idx : Z) (osm_id : option pystr) : pystr :=
  match osm_id with
  | Some (c :: s) => py "osm_" ++ (c :: s)
  | _ => py "monument_" ++ str_of_int idx
  end.

(** The body of the [try] block of the row loop. *)
Definition row_body (idx : Z) (row : Row) : M unit :=
  v <- lift (get row (py "OSM Id")) ;;
  let osm_id := clean_value v in
  let monument_uri := safe_uri BASE (monument_id idx osm_id) in
  add (monument_uri, RDF_type, SCHEMA_Place) ;;;
  map_csv_to_rdf row monument_uri.

(** One iteration of the loop, past the limit test: the [try] block and
    its [except Exception] handler. *)
Definition process_row (idx : Z) (row : Row) (st : State) : State :=
  match row_body idx row (graph st) with
  | (g, Ok _) =>
    {| graph := g;
       success_count := success_count st + 1;
       errors_count := errors_count st |}
  | (g, Raise _) =>
    {| graph := g;
       success_count := success_count st;
       errors_count := errors_count st + 1 |}
  end.

(** [for idx, row in enumerate(reader, idx): ...] *)
Fixpoint row_loop (limit : option Z) (idx : Z) (rows : list Row)
  (st : State) : State :=
  match rows with
  | [] => st
  | row :: rest =>
    if limit_reached limit idx then st
    else row_loop limit (idx + 1) rest (process_row idx row st)
  end.

Definition initial_state : State :=
  {| graph := ∅; success_count := 0; errors_count := 0 |}.

(** [convert_csv_to_rdf], on the records the reader yields; the result is
    the graph it returns with the two counters it reports. *)
Definition convert_csv_to_rdf (rows : list Row) (limit : option Z) : State :=
  row_loop limit 1 rows initial_state.

(** *** The triples of a row, column by column

    What the rule table of the mapper lists for a [dict] record; the
    mapper is shown below to add exactly these. *)
Definition field (d : gmap pystr pyval) (k : pystr) : option pystr :=
  clean_value (default PNone (d !! k)).

Definition opt_triples (o : option pystr) (f : pystr -> list triple)
  : list triple :=
  match o with
  | Some (c :: s) => f (c :: s)
  | _ => []
  end.

Definition geo_triples (uri : term) (osm_point : pystr) : list triple :=
  match parse_coordinates (PStr osm_point) with
  | Ok (Some (lat, lon)) =>
    [(uri, WGS84_lat, float_literal lat XSD_decimal);
     (uri, WGS84_long, float_literal lon XSD_decimal)]
  | _ => []
  end.

Definition mapped_triples (d : gmap pystr pyval) (uri : term) : list triple :=
  opt_triples (field d (py "Type"))
    (fun t => [(uri, SCHEMA_category, safe_uri SCHEMA t)])
  ++ opt_triples (field d (py "Nom"))
    (fun t => [(uri, SCHEMA_name, Literal t None)])
  ++ opt_triples (field d (py "Commune"))
    (fun t => [(uri, SCHEMA_addressLocality, Literal t None)])
  ++ opt_triples (field d (py "Département"))
    (fun t => [(uri, SCHEMA_department, Literal t None)])
  ++ opt_triples (field d (py "Région"))
    (fun t => [(uri, SCHEMA_addressRegion, Literal t None)])
  ++ opt_triples (field d (py "OSM Point")) (geo_triples uri)
  ++ opt_triples (field d (py "OSM Id"))
    (fun t => [(uri, OSM_osmId, Literal t None)])
  ++ opt_triples (field d (py "OSM URL"))
    (fun t => [(uri, SCHEMA_url, URIRef t)])
  ++ opt_triples (field d (py "OSM Date mise à jour"))
    (fun t => [(uri, DCTERMS_modified,
                Literal (date_lexical t) (Some XSD_date))]).

Definition row_subject (idx : Z) (d : gmap pystr pyval) : term :=
  safe_uri BASE (monument_id idx (field d (py "OSM Id"))).

Definition row_triples (idx : Z) (d : gmap pystr pyval) : list triple :=
  (row_subject idx d, RDF_type, SCHEMA_Place)
    :: mapped_triples d (row_subject idx d).

(** What one row adds to the graph, whatever the graph holds. *)
Definition row_contribution (idx : Z) (row : Row) : Graph :=
  (row_body idx row ∅).1.

(** The rule table of the mapper for the columns that give one triple: the
    column, the predicate and the object built from the cleaned value. *)
Definition column_rules : list (pystr * term * (pystr -> term)) :=
  [ (py "Type", SCHEMA_category, safe_uri SCHEMA);
    (py "Nom", SCHEMA_name, fun v => Literal v None);
    (py "Commune", SCHEMA_addressLocality, fun v => Literal v None);
    (py "Département", SCHEMA_department, fun v => Literal v None);
    (py "Région", SCHEMA_addressRegion, fun v => Literal v None);
    (py "OSM Id", OSM_osmId, fun v => Literal v None);
    (py "OSM URL", SCHEMA_url, URIRef);
    (py "OSM Date mise à jour", DCTERMS_modified,
       fun v => Literal (date_lexical v) (Some XSD_date)) ].

(** A record whose cleaned OSM Id is present. *)
Definition has_osm_id (d : gmap pystr pyval) : Prop :=
  is_Some (field d (py "OSM Id")).

(** The union of what the records add, each taken at position 0. *)
Definition records_graph (ds : list (gmap pystr pyval)) : Graph :=
  ⋃ ((fun d => list_to_set (row_triples 0 d)) <$> ds).

(** ** Stripping *)

Lemma lstrip_head p s c r : lstrip p s = c :: r -> p c = false.
Proof.
  induction s as [|a s IH]; simpl; [discriminate|].
  destruct (p a) eqn:E; [exact IH|].
  intros [= -> _]. exact E.
Qed.

Lemma lstrip_suffix p s : exists pre, s = pre ++ lstrip p s.
Proof.
  induction s as [|a s [pre IH]]; simpl.
  - exists []. reflexivity.
  - destruct (p a).
    + exists (a :: pre). simpl. f_equal. exact IH.
    + exists []. reflexivity.
Qed.

Lemma rstrip_snoc p s c :
  rstrip p (s ++ [c]) = if p c then rstrip p s else s ++ [c].
Proof.
  unfold rstrip. rewrite rev_app_distr. simpl.
  destruct (p c); [reflexivity|].
  simpl. rewrite rev_involutive. reflexivity.
Qed.

Lemma rstrip_last p s c r : rstrip p s = r ++ [c] -> p c = false.
Proof.
  induction s as [|x s IH] using rev_ind.
  - unfold rstrip. simpl. intros H. destruct r; discriminate.
  - rewrite rstrip_snoc. destruct (p x) eqn:E; [exact IH|].
    intros H. apply app_inj_tail in H as [_ ->]. exact E.
Qed.

Lemma rstrip_prefix p s : exists suf, s = rstrip p s ++ suf.
Proof.
  induction s as [|x s [suf IH]] using rev_ind.
  - exists []. reflexivity.
  - rewrite rstrip_snoc. destruct (p x).
    + exists (suf ++ [x]). rewrite app_assoc, <- IH. reflexivity.
    + exists []. rewrite app_nil_r. reflexivity.
Qed.

Lemma strip_chars_clean p s : clean_ends p (strip_chars p s).
Proof.
  unfold strip_chars. split; intros c r H.
  - destruct (rstrip_prefix p (lstrip p s)) as [suf Hs].
    rewrite H in Hs. simpl in Hs.
    apply (lstrip_head p s c (r ++ suf)). exact Hs.
  - apply (rstrip_last p (lstrip p s) c r). exact H.
Qed.

Lemma strip_chars_fixed p s : clean_ends p s -> strip_chars p s = s.
Proof.
  intros [Hh Hl]. unfold strip_chars.
  assert (lstrip p s = s) as ->.
  { destruct s as [|a s]; [reflexivity|].
    simpl. rewrite (Hh a s eq_refl). reflexivity. }
  destruct s as [|x s _] using rev_ind; [reflexivity|].
  rewrite rstrip_snoc, (Hl x s eq_refl). reflexivity.
Qed.

Lemma strip_chars_sub p s :
  exists pre suf, s = pre ++ strip_chars p s ++ suf.
Proof.
  destruct (lstrip_suffix p s) as [pre Hp].
  destruct (rstrip_prefix p (lstrip p s)) as [suf Hs].
  exists pre, suf. unfold strip_chars. rewrite <- Hs. exact Hp.
Qed.

(** ** Collapsing underscores *)

Lemma sub_underscores_cons c s :
  sub_underscores (c :: s) =
  if is_underscore c && is_underscore (hd 0 s) then sub_underscores s
  else c :: sub_underscores s.
Proof.
  unfold is_underscore. simpl.
  destruct (c =? c_underscore); [|reflexivity].
  destruct s as [|c' s]; [reflexivity|]. simpl.
  destruct (c' =? c_underscore); reflexivity.
Qed.

Lemma no_double_cons c s :
  no_double_underscore (c :: s) =
  negb (is_underscore c && is_underscore (hd 0 s)) && no_double_underscore s.
Proof.
  destruct s as [|c' s]; simpl; [|reflexivity].
  destruct (is_underscore c); reflexivity.
Qed.

Lemma sub_underscores_hd s :
  is_underscore (hd 0 (sub_underscores s)) = is_underscore (hd 0 s).
Proof.
  induction s as [|c s IH]; [reflexivity|].
  rewrite sub_underscores_cons.
  destruct (is_underscore c) eqn:Ec, (is_underscore (hd 0 s)) eqn:Es;
    simpl; congruence.
Qed.

Lemma sub_underscores_no_double s :
  no_double_underscore (sub_underscores s) = true.
Proof.
  induction s as [|c s IH]; [reflexivity|].
  rewrite sub_underscores_cons.
  destruct (is_underscore c && is_underscore (hd 0 s)) eqn:E; [exact IH|].
  rewrite no_double_cons, sub_underscores_hd, E, IH. reflexivity.
Qed.

Lemma sub_underscores_fixed s :
  no_double_underscore s = true -> sub_underscores s = s.
Proof.
  induction s as [|c s IH]; [reflexivity|].
  rewrite no_double_cons, sub_underscores_cons.
  intros [Hc Hs]%andb_true_iff.
  apply negb_true_iff in Hc. rewrite Hc, (IH Hs). reflexivity.
Qed.

Lemma sub_underscores_forall (q : N -> bool) s :
  forallb q s = true -> forallb q (sub_underscores s) = true.
Proof.
  induction s as [|c s IH]; [reflexivity|].
  rewrite sub_underscores_cons. simpl.
  intros [Hc Hs]%andb_true_iff.
  destruct (is_underscore c && is_underscore (hd 0 s)); [exact (IH Hs)|].
  simpl. rewrite Hc, (IH Hs). reflexivity.
Qed.

Lemma no_double_app s1 s2 :
  no_double_underscore (s1 ++ s2) = true ->
  no_double_underscore s1 = true /\ no_double_underscore s2 = true.
Proof.
  induction s1 as [|c s1 IH]; simpl app; [intros H; split; [reflexivity|exact H]|].
  rewrite !no_double_cons.
  intros [Hc Hs]%andb_true_iff. destruct (IH Hs) as [H1 H2].
  split; [|exact H2]. rewrite H1, andb_true_r.
  destruct s1 as [|c' s1]; [|exact Hc].
  simpl. destruct (is_underscore c); reflexivity.
Qed.

(** Replacing runs and then collapsing underscores is replacing
    character by character and then collapsing. *)
Lemma replace_runs_hd safe s :
  is_underscore (hd 0 (replace_runs safe s)) =
  is_underscore (hd 0 (map (fun c => if safe c then c else c_underscore) s)).
Proof.
  induction s as [|c s IH]; [reflexivity|]. simpl.
  destruct (safe c) eqn:Ec; [reflexivity|].
  destruct s as [|c' s]; [reflexivity|].
  destruct (safe c') eqn:Ec'; [reflexivity|].
  rewrite IH. simpl. rewrite Ec'. reflexivity.
Qed.

Lemma sub_underscores_replace_runs safe s :
  sub_underscores (replace_runs safe s) =
  sub_underscores (map (fun c => if safe c then c else c_underscore) s).
Proof.
  induction s as [|c s IH]; [reflexivity|].
  cbn [map]. rewrite (sub_underscores_cons _ (map _ s)).
  destruct (safe c) eqn:Ec.
  - cbn [replace_runs]. rewrite Ec, sub_underscores_cons, replace_runs_hd, IH.
    reflexivity.
  - cbn [replace_runs]. rewrite Ec.
    destruct s as [|c' s]; [reflexivity|].
    destruct (safe c') eqn:Ec'.
    + rewrite sub_underscores_cons, replace_runs_hd, IH. reflexivity.
    + rewrite IH. cbn [map hd]. rewrite Ec'. reflexivity.
Qed.

(** ** Character classes *)

Lemma ascii_safe_lt c : ascii_safe c = true -> c < 128.
Proof.
  unfold ascii_safe, ascii_alnum, c_hyphen, c_underscore, c_period.
  intros H. to_arith H. lia.
Qed.

Lemma ascii_safe_not_space c : ascii_safe c = true -> py_isspace c = false.
Proof.
  intros H. apply not_true_is_false. intros Hs. revert H Hs.
  unfold ascii_safe, ascii_alnum, py_isspace, c_hyphen, c_underscore, c_period.
  intros H Hs. to_arith H. to_arith Hs. lia.
Qed.

Lemma in_class_ascii c : c < 128 -> in_class c = ascii_safe c.
Proof.
  intros H. unfold in_class, is_word, ascii_safe.
  apply N.ltb_lt in H. rewrite H.
  destruct (ascii_alnum c), (c =? c_hyphen), (c =? c_underscore),
    (c =? c_period); reflexivity.
Qed.

Lemma ascii_safe_in_class c : ascii_safe c = true -> in_class c = true.
Proof.
  intros H. rewrite in_class_ascii; [exact H|]. apply ascii_safe_lt, H.
Qed.

Lemma in_class_not_space c :
  (forall x, py_isspace x = true -> uni_alnum x = false) ->
  in_class c = true -> py_isspace c = false.
Proof.
  intros Htab H. destruct (N.ltb_spec c 128) as [Hlt|Hge].
  - rewrite in_class_ascii in H by exact Hlt.
    apply ascii_safe_not_space, H.
  - apply not_true_is_false. intros Hs.
    pose proof (Htab c Hs) as Hu. revert H.
    unfold in_class, is_word.
    apply N.ltb_ge in Hge. rewrite Hge, Hu.
    unfold c_hyphen, c_underscore, c_period. apply N.ltb_ge in Hge.
    intros H. to_arith H. lia.
Qed.

(** ** The token *)

Lemma sub_unsafe_fixed s : forallb in_class s = true -> sub_unsafe s = s.
Proof.
  induction s as [|c s IH]; [reflexivity|]. simpl.
  intros [Hc Hs]%andb_true_iff. rewrite Hc, (IH Hs). reflexivity.
Qed.

Lemma sub_unsafe_in_class s : forallb in_class (sub_unsafe s) = true.
Proof.
  induction s as [|c s IH]; [reflexivity|]. simpl. rewrite IH, andb_true_r.
  destruct (in_class c) eqn:E; [exact E|].
  apply in_class_ascii. unfold c_underscore. lia.
Qed.

Lemma plain_underscores_spec s :
  plain_underscores s = true <->
  clean_ends is_underscore s /\ no_double_underscore s = true.
Proof.
  unfold plain_underscores, clean_ends. split.
  - intros [[Hh Hl]%andb_true_iff Hd]%andb_true_iff.
    apply negb_true_iff in Hh, Hl. repeat split; [| |exact Hd].
    + intros c r ->. exact Hh.
    + intros c r ->. rewrite rev_app_distr in Hl. exact Hl.
  - intros [[Hh Hl] Hd]. rewrite Hd, andb_true_r.
    apply andb_true_iff. split; apply negb_true_iff.
    + destruct s as [|c r]; [reflexivity|]. exact (Hh c r eq_refl).
    + destruct (rev s) as [|c r] eqn:E; [reflexivity|].
      apply (Hl c (rev r)). rewrite <- (rev_involutive s), E. reflexivity.
Qed.

Lemma token_fixed t :
  t <> [] -> py_strip t = t -> forallb in_class t = true ->
  plain_underscores t = true -> safe_uri_token t = t.
Proof.
  intros Hne Hstrip Hclass [Hends Hdbl]%plain_underscores_spec.
  unfold safe_uri_token.
  rewrite Hstrip, (sub_unsafe_fixed t Hclass),
    (sub_underscores_fixed t Hdbl), (strip_chars_fixed _ t Hends).
  rewrite bool_decide_eq_false_2 by exact Hne. reflexivity.
Qed.

Lemma forallb_ends (q p : N -> bool) s :
  (forall c, q c = true -> p c = false) ->
  forallb q s = true -> clean_ends p s.
Proof.
  intros Hqp Hs. split; intros c r ->.
  - simpl in Hs. apply andb_true_iff in Hs as [Hc _]. exact (Hqp c Hc).
  - rewrite forallb_app in Hs. simpl in Hs.
    apply andb_true_iff in Hs as [_ [Hc _]%andb_true_iff]. exact (Hqp c Hc).
Qed.

(** ** The claims on [safe_uri] *)

(** C2, as amended: for every input string the token of [safe_uri] is
    the result of trimming whitespace, replacing every maximal run of
    characters outside the class of the pattern (the word characters of
    [\w], which are the alphanumeric characters of Unicode and the
    underscore, with hyphen and period) by one underscore, collapsing
    repeated underscores, trimming underscores, and substituting
    [unknown] for an empty result. *)
Theorem safe_uri_token_refines_spec s :
  safe_uri_token s = spec_token in_class s.
Proof.
  unfold safe_uri_token, spec_token, sub_unsafe.
  rewrite sub_underscores_replace_runs. reflexivity.
Qed.

(** C3, as amended: a non-empty string of ASCII letters, digits, hyphens,
    underscores and periods that neither starts nor ends with an
    underscore and has no two underscores in a row is its own token, and
    trimming whitespace leaves it unchanged. *)
Theorem safe_uri_token_plain s :
  s <> [] -> forallb ascii_safe s = true -> plain_underscores s = true ->
  safe_uri_token s = py_strip s /\ py_strip s = s.
Proof.
  intros Hne Hsafe Hplain.
  assert (py_strip s = s) as Hstrip.
  { apply strip_chars_fixed, (forallb_ends ascii_safe); [|exact Hsafe].
    exact ascii_safe_not_space. }
  split; [|exact Hstrip]. rewrite Hstrip.
  apply token_fixed; try assumption.
  apply forallb_forall. intros c Hc.
  apply ascii_safe_in_class. revert c Hc. apply forallb_forall, Hsafe.
Qed.

(** C4: the token computation is idempotent, the Unicode database
    classifying no whitespace character as alphanumeric. *)
Theorem safe_uri_token_idempotent :
  (forall c, py_isspace c = true -> uni_alnum c = false) ->
  forall s, safe_uri_token (safe_uri_token s) = safe_uri_token s.
Proof.
  intros Htab s. unfold safe_uri_token at 2 3.
  set (t := strip_chars is_underscore
              (sub_underscores (sub_unsafe (py_strip s)))).
  destruct (bool_decide (t = [])) eqn:E.
  - vm_compute. reflexivity.
  - apply bool_decide_eq_false in E.
    destruct (strip_chars_sub is_underscore
                (sub_underscores (sub_unsafe (py_strip s))))
      as (pre & suf & Hsub).
    fold t in Hsub.
    assert (forallb in_class t = true) as Hclass.
    { pose proof (sub_underscores_forall in_class _
                    (sub_unsafe_in_class (py_strip s))) as H.
      rewrite Hsub, !forallb_app in H.
      apply andb_true_iff in H as [_ [H _]%andb_true_iff]. exact H. }
    apply token_fixed; [exact E| |exact Hclass|].
    + apply strip_chars_fixed, (forallb_ends in_class); [|exact Hclass].
      intros c. apply in_class_not_space, Htab.
    + apply plain_underscores_spec. split; [apply strip_chars_clean|].
      pose proof (sub_underscores_no_double (sub_unsafe (py_strip s))) as H.
      rewrite Hsub in H.
      apply no_double_app in H as [_ H]. apply no_double_app in H as [H _].
      exact H.
Qed.

(** ** The claim on [parse_coordinates] *)

Lemma parse_coordinates_parts s p0 p1 :
  s <> [] -> split_on c_comma s = [p0; p1] ->
  parse_coordinates (PStr s) =
  Ok (match py_float (py_strip p0), py_float (py_strip p1) with
      | Some lat, Some lon => Some (lat, lon)
      | _, _ => None
      end).
Proof.
  intros Hne Hs. unfold parse_coordinates. simpl.
  rewrite bool_decide_eq_false_2 by exact Hne. simpl.
  rewrite Hs. unfold float_call.
  destruct (py_float (py_strip p0)); [|reflexivity].
  destruct (py_float (py_strip p1)); reflexivity.
Qed.

Lemma parse_coordinates_other s :
  length (split_on c_comma s) <> 2%nat -> parse_coordinates (PStr s) = Ok None.
Proof.
  intros Hl. unfold parse_coordinates. simpl.
  destruct (bool_decide (s = [])); [reflexivity|]. simpl.
  destruct (split_on c_comma s) as [|p0 [|p1 [|p2 r]]]; try reflexivity.
  simpl in Hl. congruence.
Qed.

Lemma parse_coordinates_non_str v :
  is_str v = false -> parse_coordinates v = Ok None.
Proof.
  intros H. unfold parse_coordinates. rewrite H, orb_true_r. reflexivity.
Qed.

Lemma parse_coordinates_total v : exists r, parse_coordinates v = Ok r.
Proof.
  destruct v as [|s| |];
    try (eexists; apply parse_coordinates_non_str; reflexivity).
  destruct (decide (length (split_on c_comma s) = 2%nat)) as [Hl|Hl].
  - destruct (split_on c_comma s) as [|p0 [|p1 [|p2 r]]] eqn:Hs;
      try discriminate Hl.
    destruct s as [|c s]; [discriminate Hs|].
    eexists. apply (parse_coordinates_parts _ p0 p1); [discriminate|exact Hs].
  - eexists. apply parse_coordinates_other, Hl.
Qed.

(** C5: [parse_coordinates] never raises; it returns the absent pair
    exactly when the input is not a string, does not split into exactly
    two comma-separated parts, or one of the two parts is not read as a
    float; and the four examples of the specification. *)
Theorem parse_coordinates_absent_iff :
  (forall v, exists r, parse_coordinates v = Ok r)
  /\ (forall v,
       parse_coordinates v = Ok None <->
       (is_str v = false
        \/ exists s, v = PStr s
           /\ (length (split_on c_comma s) <> 2%nat
               \/ exists p0 p1, split_on c_comma s = [p0; p1]
                  /\ (py_float (py_strip p0) = None
                      \/ py_float (py_strip p1) = None))))
  /\ (forall lat lon,
       py_float (py "48.97") = Some lat -> py_float (py "5.51") = Some lon ->
       parse_coordinates (PStr (py "48.97, 5.51")) = Ok (Some (lat, lon)))
  /\ parse_coordinates (PStr (py "not,a,number,here")) = Ok None
  /\ parse_coordinates (PStr (py "")) = Ok None
  /\ parse_coordinates PNone = Ok None.
Proof.
  split; [exact parse_coordinates_total|]. split; [|split].
  - intros v. destruct v as [|s|z|l];
      try (split; [intros _; left; reflexivity
                  |intros _; apply parse_coordinates_non_str; reflexivity]).
    destruct (decide (length (split_on c_comma s) = 2%nat)) as [Hl|Hl].
    + destruct (split_on c_comma s) as [|p0 [|p1 [|p2 r]]] eqn:Hs;
        try discriminate Hl.
      assert (s <> []) as Hne by (intros ->; discriminate Hs).
      rewrite (parse_coordinates_parts s p0 p1 Hne Hs). split.
      * intros H. right. exists s. split; [reflexivity|]. right.
        exists p0, p1. split; [exact Hs|].
        destruct (py_float (py_strip p0)); [|left; reflexivity].
        destruct (py_float (py_strip p1)); [discriminate H|right; reflexivity].
      * intros [H|(s' & [= <-] & [H|(q0 & q1 & Hq & H)])];
          [discriminate H|rewrite Hs in H; contradiction|].
        rewrite Hs in Hq. injection Hq as <- <-.
        destruct H as [-> | ->]; [reflexivity|].
        destruct (py_float (py_strip p0)); reflexivity.
    + rewrite (parse_coordinates_other s Hl). split; [|reflexivity].
      intros _. right. exists s. split; [reflexivity|]. left. exact Hl.
  - intros lat lon Hlat Hlon.
    rewrite (parse_coordinates_parts _ (py "48.97") (py " 5.51"));
      [|discriminate|reflexivity].
    change (py_strip (py "48.97")) with (py "48.97").
    change (py_strip (py " 5.51")) with (py "5.51").
    rewrite Hlat, Hlon. reflexivity.
  - repeat split; reflexivity.
Qed.

(** ** Computations on the graph *)

Lemma emits_ret {A} (a : A) : emits (ret a) [] (Ok a).
Proof. intros g. unfold ret. f_equal. set_solver. Qed.

Lemma emits_add t : emits (add t) [t] (Ok tt).
Proof. intros g. unfold add. f_equal. set_solver. Qed.

Lemma emits_bind {A B} (m : M A) (k : A -> M B) l1 a l2 r :
  emits m l1 (Ok a) -> emits (k a) l2 r -> emits (bind m k) (l1 ++ l2) r.
Proof.
  intros Hm Hk g. unfold bind. rewrite Hm, Hk. f_equal.
  rewrite list_to_set_app_L. set_solver.
Qed.

Lemma emits_get {A} d key (k : pyval -> M A) l r :
  emits (k (default PNone (d !! key))) l r ->
  emits (bind (lift (get (dict_row d) key)) k) l r.
Proof. intros Hk g. unfold bind, lift. simpl. apply Hk. Qed.

Lemma emits_when_str o body f :
  (forall s, emits (body s) (f s) (Ok tt)) ->
  emits (when_str o body) (opt_triples o f) (Ok tt).
Proof.
  intros Hb. destruct o as [[|c s]|]; simpl;
    [apply emits_ret|apply Hb|apply emits_ret].
Qed.

Lemma emits_geo uri p :
  emits (c <- lift (parse_coordinates (PStr p)) ;;
         match c with
         | Some (lat, lon) =>
           add (uri, WGS84_lat, float_literal lat XSD_decimal) ;;;
           add (uri, WGS84_long, float_literal lon XSD_decimal)
         | None => ret tt
         end)
        (geo_triples uri p) (Ok tt).
Proof.
  unfold geo_triples.
  destruct (parse_coordinates_total (PStr p)) as [[[lat lon]|] Hp];
    rewrite Hp; intros g; unfold bind, lift, add, ret; f_equal; set_solver.
Qed.

Lemma map_csv_to_rdf_dict d uri :
  emits (map_csv_to_rdf (dict_row d) uri) (mapped_triples d uri) (Ok tt).
Proof.
  unfold map_csv_to_rdf, mapped_triples, field.
  repeat (apply emits_get;
          eapply emits_bind;
          [apply emits_when_str; intros s;
           first [apply emits_add | apply emits_geo]|]).
  apply emits_get.
  apply emits_when_str. intros s. apply emits_add.
Qed.

Lemma row_body_dict idx d :
  emits (row_body idx (dict_row d)) (row_triples idx d) (Ok tt).
Proof.
  unfold row_body, row_triples, row_subject, field.
  apply emits_get.
  apply (emits_bind _ _ [_] tt); [apply emits_add|].
  apply map_csv_to_rdf_dict.
Qed.

Lemma process_row_dict idx d st :
  process_row idx (dict_row d) st =
  {| graph := list_to_set (row_triples idx d) ∪ graph st;
     success_count := success_count st + 1;
     errors_count := errors_count st |}.
Proof. unfold process_row. rewrite row_body_dict. reflexivity. Qed.

Lemma row_contribution_dict idx d :
  row_contribution idx (dict_row d) = list_to_set (row_triples idx d).
Proof.
  unfold row_contribution. rewrite row_body_dict. cbn [fst].
  apply union_empty_r_L.
Qed.

(** ** The example of the specification *)

Lemma dict_reader_example : dict_reader example_csv = [dict_row example_record].
Proof. vm_compute. reflexivity. Qed.

Lemma example_triples_size : size (list_to_set example_triples : Graph) = 11%nat.
Proof.
  rewrite size_list_to_set; [reflexivity|].
  apply (NoDup_fmap_1 predicate).
  refine (bool_decide_unpack _ _). vm_compute. exact I.
Qed.

Lemma convert_example_state lat lon :
  py_float (py "48.97") = Some lat -> float_str lat = py "48.97" ->
  py_float (py "5.51") = Some lon -> float_str lon = py "5.51" ->
  date_lexical (py "2020-01-01") = py "2020-01-01" ->
  convert_csv_to_rdf (dict_reader example_csv) None =
  {| graph := list_to_set example_triples;
     success_count := 1; errors_count := 0 |}.
Proof.
  intros Hlat Hlat_str Hlon Hlon_str Hdate.
  unfold convert_csv_to_rdf. rewrite dict_reader_example.
  cbn [row_loop limit_reached]. rewrite process_row_dict.
  cbn [graph initial_state]. rewrite union_empty_r_L.
  assert (row_triples 1 example_record = example_triples) as ->;
    [|reflexivity].
  vm_compute in Hlat, Hlon, Hlat_str, Hlon_str, Hdate. vm_compute.
  rewrite Hlat, Hlon, Hlat_str, Hlon_str, Hdate. reflexivity.
Qed.

(** C1, as amended: the example file gives a graph of exactly 11 triples
    on the one subject ending in [osm_12345]: the type, the category, the
    five string literals, the two decimal literals, the URL and the
    date; one row is counted as mapped and none as failed. *)
Theorem convert_example lat lon :
  py_float (py "48.97") = Some lat -> float_str lat = py "48.97" ->
  py_float (py "5.51") = Some lon -> float_str lon = py "5.51" ->
  date_lexical (py "2020-01-01") = py "2020-01-01" ->
  let st := convert_csv_to_rdf (dict_reader example_csv) None in
  graph st = list_to_set example_triples
  /\ size (graph st) = 11%nat
  /\ Forall (fun t => subject t = example_subject) (elements (graph st))
  /\ success_count st = 1%Z /\ errors_count st = 0%Z.
Proof.
  intros Hlat Hlat_str Hlon Hlon_str Hdate st. subst st.
  rewrite (convert_example_state lat lon Hlat Hlat_str Hlon Hlon_str Hdate).
  cbn [graph success_count errors_count].
  split; [reflexivity|]. split; [exact example_triples_size|].
  split; [|split; reflexivity].
  apply Forall_forall. intros t Ht.
  apply elem_of_elements, elem_of_list_to_set in Ht.
  revert t Ht. apply Forall_forall.
  repeat constructor.
Qed.

(** ** Invariants of the graph *)

Lemma preserves_lift {A} P (r : result A) : preserves P (lift r).
Proof. intros g Hg. exact Hg. Qed.

Lemma preserves_ret {A} P (a : A) : preserves P (ret a).
Proof. intros g Hg. exact Hg. Qed.

Lemma preserves_bind {A B} P (m : M A) (k : A -> M B) :
  preserves P m -> (forall a, preserves P (k a)) -> preserves P (bind m k).
Proof.
  intros Hm Hk g Hg. unfold bind. specialize (Hm g Hg).
  destruct (m g) as [g' [a|e]]; simpl in *; [apply Hk, Hm|exact Hm].
Qed.

Lemma preserves_when_str P o body :
  (forall s, preserves P (body s)) -> preserves P (when_str o body).
Proof.
  intros Hb. destruct o as [[|c s]|]; simpl;
    [apply preserves_ret|apply Hb|apply preserves_ret].
Qed.

Lemma preserves_add_other s p o :
  p <> WGS84_lat -> p <> WGS84_long -> preserves geo_paired (add (s, p, o)).
Proof.
  intros Hlat Hlong g Hg s'. unfold add, has_lat, has_long. simpl.
  specialize (Hg s'). unfold has_lat, has_long in Hg.
  split; intros [x Hx]; apply elem_of_union in Hx as [Hx|Hx].
  - apply elem_of_singleton in Hx. congruence.
  - destruct (proj1 Hg (ex_intro _ x Hx)) as [y Hy]. exists y. set_solver.
  - apply elem_of_singleton in Hx. congruence.
  - destruct (proj2 Hg (ex_intro _ x Hx)) as [y Hy]. exists y. set_solver.
Qed.

Lemma preserves_add_pair s a b :
  preserves geo_paired
    (add (s, WGS84_lat, a) ;;; add (s, WGS84_long, b)).
Proof.
  intros g Hg s'. unfold bind, add, has_lat, has_long. simpl.
  specialize (Hg s'). unfold has_lat, has_long in Hg.
  split; intros [x Hx].
  - apply elem_of_union in Hx as [Hx|Hx];
      [apply elem_of_singleton in Hx; discriminate Hx|].
    apply elem_of_union in Hx as [Hx|Hx].
    + apply elem_of_singleton in Hx. injection Hx as -> _.
      exists b. set_solver.
    + destruct (proj1 Hg (ex_intro _ x Hx)) as [y Hy]. exists y. set_solver.
  - apply elem_of_union in Hx as [Hx|Hx].
    + apply elem_of_singleton in Hx. injection Hx as -> _.
      exists a. set_solver.
    + apply elem_of_union in Hx as [Hx|Hx];
        [apply elem_of_singleton in Hx; discriminate Hx|].
      destruct (proj2 Hg (ex_intro _ x Hx)) as [y Hy]. exists y. set_solver.
Qed.

Ltac other_predicate :=
  apply preserves_add_other; intros H; vm_compute in H; discriminate H.

Lemma map_csv_to_rdf_paired row uri :
  preserves geo_paired (map_csv_to_rdf row uri).
Proof.
  unfold map_csv_to_rdf.
  repeat (apply preserves_bind; [apply preserves_lift|intros ?];
          apply preserves_bind;
          [apply preserves_when_str; intros ?
          |intros _]);
    try other_predicate.
  - apply preserves_bind; [apply preserves_lift|intros [[lat lon]|]];
      [apply preserves_add_pair|apply preserves_ret].
  - apply preserves_bind; [apply preserves_lift|intros ?].
    apply preserves_when_str. intros ?. other_predicate.
Qed.

Lemma row_body_paired idx row : preserves geo_paired (row_body idx row).
Proof.
  unfold row_body.
  apply preserves_bind; [apply preserves_lift|intros v].
  apply preserves_bind; [other_predicate|intros _].
  apply map_csv_to_rdf_paired.
Qed.

Lemma process_row_graph idx row st :
  graph (process_row idx row st) = (row_body idx row (graph st)).1.
Proof.
  unfold process_row. destruct (row_body idx row (graph st)) as [g [[]|e]];
    reflexivity.
Qed.

Lemma row_loop_paired limit rows : forall idx st,
  geo_paired (graph st) -> geo_paired (graph (row_loop limit idx rows st)).
Proof.
  induction rows as [|row rows IH]; intros idx st Hst; simpl; [exact Hst|].
  destruct (limit_reached limit idx); [exact Hst|].
  apply IH. rewrite process_row_graph. apply row_body_paired, Hst.
Qed.

Lemma geo_paired_empty : geo_paired ∅.
Proof.
  intros s. unfold has_lat, has_long. split; intros [x Hx]; set_solver.
Qed.

(** ** The coordinates of a row *)

Lemma filter_opt_triples (q : triple -> bool) o f :
  (forall s, List.filter q (f s) = []) ->
  List.filter q (opt_triples o f) = [].
Proof. intros Hf. destruct o as [[|c s]|]; simpl; [reflexivity|apply Hf|reflexivity]. Qed.

Lemma filter_geo_triples uri p :
  List.filter is_geo (geo_triples uri p) = geo_triples uri p.
Proof.
  unfold geo_triples.
  destruct (parse_coordinates (PStr p)) as [[[lat lon]|]|e]; reflexivity.
Qed.

Ltac not_geo := apply filter_opt_triples; intros ?; vm_compute; reflexivity.

Lemma filter_geo_row idx d :
  List.filter is_geo (row_triples idx d) =
  opt_triples (field d (py "OSM Point")) (geo_triples (row_subject idx d)).
Proof.
  unfold row_triples, mapped_triples.
  change (List.filter is_geo (?t :: ?l)) with (List.filter is_geo ([t] ++ l)).
  rewrite !List.filter_app.
  match goal with
  | |- ?a ++ _ = _ => assert (a = []) as -> by (vm_compute; reflexivity)
  end.
  repeat match goal with
  | |- context [List.filter is_geo (opt_triples ?o (geo_triples ?u))] =>
    assert (List.filter is_geo (opt_triples o (geo_triples u))
            = opt_triples o (geo_triples u)) as ->
      by (destruct o as [[|c s]|]; simpl; [reflexivity|apply filter_geo_triples|reflexivity])
  | |- context [List.filter is_geo (opt_triples ?o ?f)] =>
    assert (List.filter is_geo (opt_triples o f) = []) as -> by not_geo
  end.
  simpl. rewrite app_nil_r. reflexivity.
Qed.

Lemma clean_value_nonempty v s : clean_value v = Some s -> s <> [].
Proof.
  unfold clean_value.
  destruct (negb (truthy v) || negb (is_str v)); [discriminate|].
  destruct v; try discriminate.
  destruct (bool_decide (py_strip s0 = [])) eqn:E; [discriminate|].
  intros [= <-]. apply bool_decide_eq_false in E. exact E.
Qed.

Lemma opt_triples_some o s f : o = Some s -> s <> [] -> opt_triples o f = f s.
Proof. intros -> Hs. destruct s; [contradiction|reflexivity]. Qed.

Lemma field_delete d k k' : k <> k' -> field (delete k d) k' = field d k'.
Proof. intros H. unfold field. rewrite lookup_delete_ne by exact H. reflexivity. Qed.

(** ** Rows without values, rows with the same OSM Id *)

(** C9: a record in which every mapped column is absent or cleans to
    empty adds exactly one triple, the type of its fallback resource,
    and counts as mapped. *)
Theorem empty_row_type_only idx d st :
  Forall (fun k => field d k = None) mapped_columns ->
  let t : triple := (safe_uri BASE (py "monument_" ++ str_of_int idx),
                     RDF_type, SCHEMA_Place) in
  let st' := process_row idx (dict_row d) st in
  row_triples idx d = [t]
  /\ row_contribution idx (dict_row d) = {[ t ]}
  /\ size (row_contribution idx (dict_row d)) = 1%nat
  /\ graph st' = {[ t ]} ∪ graph st
  /\ success_count st' = (success_count st + 1)%Z
  /\ errors_count st' = errors_count st.
Proof.
  intros Hnone t st'.
  assert (row_triples idx d = [t]) as Ht.
  { unfold mapped_columns in Hnone.
    repeat match goal with
    | H : Forall _ (_ :: _) |- _ => apply Forall_cons in H as [? H]
    end.
    unfold row_triples, row_subject, mapped_triples.
    repeat match goal with
    | H : field d _ = None |- _ => rewrite H; clear H
    end.
    reflexivity. }
  subst st'. rewrite process_row_dict, row_contribution_dict, Ht.
  repeat split; try reflexivity.
  - cbn [list_to_set foldr]. apply union_empty_r_L.
  - rewrite size_list_to_set by apply NoDup_singleton. reflexivity.
  - cbn [graph list_to_set foldr]. rewrite union_empty_r_L. reflexivity.
Qed.

Lemma mapped_triples_subject d uri t :
  t ∈ mapped_triples d uri -> subject t = uri.
Proof.
  unfold mapped_triples, geo_triples. intros Ht.
  repeat (apply elem_of_app in Ht as [Ht|Ht]);
    match type of Ht with
    | _ ∈ opt_triples ?o _ => destruct o as [[|c s]|]; simpl in Ht
    end;
    try (apply elem_of_nil in Ht; contradiction);
    try (apply list_elem_of_singleton in Ht; rewrite Ht; reflexivity).
  destruct (parse_coordinates (PStr (c :: s))) as [[[lat lon]|]|e];
    try (apply elem_of_nil in Ht; contradiction).
  apply elem_of_cons in Ht as [->|Ht]; [reflexivity|].
  apply list_elem_of_singleton in Ht. rewrite Ht. reflexivity.
Qed.

Lemma row_subject_osm idx d i :
  field d (py "OSM Id") = Some i ->
  row_subject idx d = safe_uri BASE (py "osm_" ++ i).
Proof.
  intros Hf. unfold row_subject. rewrite Hf.
  pose proof (clean_value_nonempty _ _ Hf) as Hne.
  destruct i; [contradiction|reflexivity].
Qed.

(** C10: two records whose cleaned OSM Ids are equal have the same
    subject, the URI of [osm_] and the Id under the base namespace,
    whatever their positions; every triple of a record is on its subject,
    so that both records add to one resource; the graph after both is
    the union of what each adds, in which a triple added twice is there
    once; and the position names the subject only when the cleaned OSM
    Id is absent. *)
Theorem same_osm_id_same_subject idx1 idx2 d1 d2 i :
  field d1 (py "OSM Id") = Some i -> field d2 (py "OSM Id") = Some i ->
  row_subject idx1 d1 = row_subject idx2 d2
  /\ row_subject idx1 d1 = safe_uri BASE (py "osm_" ++ i)
  /\ (forall t, t ∈ row_triples idx1 d1 ++ row_triples idx2 d2 ->
        subject t = row_subject idx1 d1)
  /\ (forall st,
        graph (process_row idx2 (dict_row d2)
                 (process_row idx1 (dict_row d1) st))
        = list_to_set (row_triples idx1 d1)
            ∪ list_to_set (row_triples idx2 d2) ∪ graph st)
  /\ (forall st,
        graph (process_row idx2 (dict_row d1)
                 (process_row idx1 (dict_row d1) st))
        = graph (process_row idx1 (dict_row d1) st))
  /\ (forall idx d,
        field d (py "OSM Id") = None ->
        row_subject idx d = safe_uri BASE (py "monument_" ++ str_of_int idx)).
Proof.
  intros H1 H2.
  pose proof (row_subject_osm idx1 d1 i H1) as S1.
  pose proof (row_subject_osm idx2 d2 i H2) as S2.
  split; [congruence|]. split; [exact S1|]. split; [|split; [|split]].
  - intros t [Ht|Ht]%elem_of_app; unfold row_triples in Ht;
      apply elem_of_cons in Ht as [Ht|Ht].
    + rewrite Ht. reflexivity.
    + apply mapped_triples_subject in Ht. exact Ht.
    + rewrite Ht. change (row_subject idx2 d2 = row_subject idx1 d1).
      congruence.
    + apply mapped_triples_subject in Ht. congruence.
  - intros st. rewrite !process_row_dict. cbn [graph].
    generalize (list_to_set (row_triples idx1 d1) : Graph).
    generalize (list_to_set (row_triples idx2 d2) : Graph).
    generalize (graph st). clear. intros g a b. set_solver.
  - intros st. rewrite !process_row_dict. cbn [graph].
    assert (row_triples idx2 d1 = row_triples idx1 d1) as ->.
    { unfold row_triples.
      rewrite (row_subject_osm idx1 d1 i H1), (row_subject_osm idx2 d1 i H1).
      reflexivity. }
    generalize (list_to_set (row_triples idx1 d1) : Graph).
    generalize (graph st). clear. intros g a. set_solver.
  - intros idx d Hf. unfold row_subject. rewrite Hf. reflexivity.
Qed.

(** ** The row limit *)

Lemma row_loop_limit n rows : forall idx st,
  (0 < n)%Z ->
  row_loop (Some n) idx rows st =
  row_loop None idx (take (Z.to_nat (n - idx + 1)) rows) st.
Proof.
  induction rows as [|row rows IH]; intros idx st Hn.
  - rewrite take_nil. reflexivity.
  - cbn [row_loop limit_reached].
    assert (Z.eqb n 0 = false) as -> by (apply Z.eqb_neq; lia). cbn [negb andb].
    destruct (Z.ltb_spec n idx) as [Hlt|Hge].
    + replace (Z.to_nat (n - idx + 1)) with 0%nat by lia. reflexivity.
    + replace (Z.to_nat (n - idx + 1)) with (S (Z.to_nat (n - (idx + 1) + 1)))
        by lia.
      cbn [take row_loop limit_reached]. apply IH, Hn.
Qed.

Lemma row_loop_counts rows : forall idx st,
  (success_count (row_loop None idx rows st)
   + errors_count (row_loop None idx rows st)
   = success_count st + errors_count st + Z.of_nat (length rows))%Z.
Proof.
  induction rows as [|row rows IH]; intros idx st.
  - simpl. lia.
  - cbn [row_loop limit_reached]. rewrite IH.
    unfold process_row.
    destruct (row_body idx row (graph st)) as [g [[]|e]]; simpl; lia.
Qed.

(** The limit from 1 on: the converter does what it does on the first
    [n] records alone, and counts [n] rows when the file has more. *)
Lemma limit_takes_first_rows n rows :
  (0 < n)%Z ->
  convert_csv_to_rdf rows (Some n) =
    convert_csv_to_rdf (take (Z.to_nat n) rows) None
  /\ ((n < Z.of_nat (length rows))%Z ->
      (success_count (convert_csv_to_rdf rows (Some n))
       + errors_count (convert_csv_to_rdf rows (Some n)) = n)%Z).
Proof.
  intros Hn. unfold convert_csv_to_rdf.
  rewrite (row_loop_limit n rows 1 initial_state Hn).
  replace (n - 1 + 1)%Z with n by lia. split; [reflexivity|].
  intros Hlen. rewrite row_loop_counts. simpl.
  rewrite length_take. lia.
Qed.

(** C6 at the limit 0: the test [limit and idx > limit] is false for
    it, and every record is mapped; a file of one record has its row
    counted. *)
Theorem limit_zero_is_ignored :
  (forall rows, convert_csv_to_rdf rows (Some 0%Z) = convert_csv_to_rdf rows None)
  /\ (forall d,
        success_count (convert_csv_to_rdf [dict_row d] (Some 0%Z)) = 1%Z
        /\ row_subject 1 d ∈
             map subject
               (elements (graph (convert_csv_to_rdf [dict_row d] (Some 0%Z))))).
Proof.
  split.
  - intros rows. unfold convert_csv_to_rdf. generalize 1%Z, initial_state.
    induction rows as [|row rows IH]; intros idx st; [reflexivity|].
    cbn [row_loop limit_reached Z.eqb negb andb]. apply IH.
  - intros d. unfold convert_csv_to_rdf.
    cbn [row_loop limit_reached Z.eqb negb andb].
    rewrite process_row_dict. split; [reflexivity|].
    cbn [graph]. apply list_elem_of_In, in_map_iff.
    exists (row_subject 1 d, RDF_type, SCHEMA_Place). split; [reflexivity|].
    apply list_elem_of_In, elem_of_elements, elem_of_union. left.
    apply elem_of_list_to_set. unfold row_triples. apply elem_of_cons.
    left. reflexivity.
Qed.

(** ** A row that raises *)

Lemma map_csv_to_rdf_preserves P row uri :
  (forall t, preserves P (add t)) -> preserves P (map_csv_to_rdf row uri).
Proof.
  intros Hadd. unfold map_csv_to_rdf.
  repeat (apply preserves_bind; [apply preserves_lift|intros ?];
          apply preserves_bind;
          [apply preserves_when_str; intros ?
          |intros _]);
    try apply Hadd.
  - apply preserves_bind; [apply preserves_lift|intros [[lat lon]|]];
      [|apply preserves_ret].
    apply preserves_bind; [apply Hadd|intros _; apply Hadd].
  - apply preserves_bind; [apply preserves_lift|intros ?].
    apply preserves_when_str. intros ?. apply Hadd.
Qed.

Lemma row_body_preserves P idx row :
  (forall t, preserves P (add t)) -> preserves P (row_body idx row).
Proof.
  intros Hadd. unfold row_body.
  apply preserves_bind; [apply preserves_lift|intros v].
  apply preserves_bind; [apply Hadd|intros _].
  apply map_csv_to_rdf_preserves, Hadd.
Qed.

Lemma add_keeps_superset (g : Graph) t : preserves (fun x => g ⊆ x) (add t).
Proof. intros x Hx. unfold add. simpl. set_solver. Qed.



(** ** More on the sanitizers *)

Lemma strip_chars_idempotent p s :
  strip_chars p (strip_chars p s) = strip_chars p s.
Proof. apply strip_chars_fixed, strip_chars_clean. Qed.

Lemma lstrip_all p s : forallb p s = true -> lstrip p s = [].
Proof.
  induction s as [|c s IH]; [reflexivity|]. simpl.
  intros [Hc Hs]%andb_true_iff. rewrite Hc. exact (IH Hs).
Qed.

Lemma strip_chars_all p s : forallb p s = true -> strip_chars p s = [].
Proof. intros H. unfold strip_chars. rewrite (lstrip_all p s H). reflexivity. Qed.

Lemma clean_value_str s :
  clean_value (PStr s) = if bool_decide (py_strip s = []) then None
                         else Some (py_strip s).
Proof.
  unfold clean_value. simpl.
  destruct (bool_decide (s = [])) eqn:E; [|rewrite orb_false_r; reflexivity].
  apply bool_decide_eq_true in E. subst s. reflexivity.
Qed.

(** X1: [clean_value] gives [None] exactly for a value that is not a
    string or whose text is empty once trimmed; a string it returns is the
    trimmed text, is not empty, has no whitespace at either end, and is
    returned unchanged when cleaned again. *)
Theorem clean_value_trims :
  (forall v, clean_value v = None <->
             (is_str v = false \/ exists s, v = PStr s /\ py_strip s = []))
  /\ (forall v s, clean_value v = Some s ->
        s <> [] /\ clean_ends py_isspace s
        /\ (exists raw, v = PStr raw /\ s = py_strip raw)
        /\ clean_value (PStr s) = Some s).
Proof.
  split.
  - intros v. destruct v as [|s|z|l];
      try (split; [intros _; left; reflexivity|]; intros _; unfold clean_value;
           simpl; rewrite ?orb_true_r; reflexivity).
    rewrite clean_value_str. split.
    + destruct (bool_decide (py_strip s = [])) eqn:E; [|discriminate].
      apply bool_decide_eq_true in E. intros _. right. exists s. split; [reflexivity|exact E].
    + intros [H|(s' & [= <-] & H)]; [discriminate H|].
      rewrite H. reflexivity.
  - intros v s Hv. pose proof (clean_value_nonempty v s Hv) as Hne.
    assert (exists raw, v = PStr raw /\ s = py_strip raw) as (raw & -> & ->).
    { destruct v as [|raw|z|l];
        try (unfold clean_value in Hv; simpl in Hv;
             rewrite ?orb_true_r in Hv; discriminate Hv).
      exists raw. split; [reflexivity|]. rewrite clean_value_str in Hv.
      destruct (bool_decide (py_strip raw = [])); [discriminate|].
      injection Hv as <-. reflexivity. }
    split; [exact Hne|]. split; [apply strip_chars_clean|].
    split; [exists raw; split; reflexivity|].
    rewrite clean_value_str.
    assert (py_strip (py_strip raw) = py_strip raw) as ->
      by apply strip_chars_idempotent.
    rewrite bool_decide_eq_false_2 by exact Hne. reflexivity.
Qed.

Lemma sub_unsafe_underscores s :
  forallb (fun c => negb (in_class c) || is_underscore c) s = true ->
  forallb is_underscore (sub_unsafe s) = true.
Proof.
  induction s as [|c s IH]; [reflexivity|]. simpl.
  intros [Hc Hs]%andb_true_iff. rewrite (IH Hs), andb_true_r.
  destruct (in_class c); [exact Hc|reflexivity].
Qed.

(** X2: a string that, once trimmed, has only characters outside the
    class of the pattern, or underscores, has the token [unknown]; so has
    the empty string. *)
Theorem safe_uri_token_unknown s :
  forallb (fun c => negb (in_class c) || is_underscore c) (py_strip s) = true ->
  safe_uri_token s = py "unknown".
Proof.
  intros H. unfold safe_uri_token.
  rewrite (strip_chars_all is_underscore); [reflexivity|].
  apply sub_underscores_forall, sub_unsafe_underscores, H.
Qed.

Lemma token_shape_strip s :
  let t := strip_chars is_underscore (sub_underscores (sub_unsafe s)) in
  forallb in_class t = true /\ plain_underscores t = true.
Proof.
  intros t.
  destruct (strip_chars_sub is_underscore (sub_underscores (sub_unsafe s)))
    as (pre & suf & Hsub).
  fold t in Hsub. split.
  - pose proof (sub_underscores_forall in_class _ (sub_unsafe_in_class s)) as H.
    rewrite Hsub, !forallb_app in H.
    apply andb_true_iff in H as [_ [H _]%andb_true_iff]. exact H.
  - apply plain_underscores_spec. split; [apply strip_chars_clean|].
    pose proof (sub_underscores_no_double (sub_unsafe s)) as H.
    rewrite Hsub in H.
    apply no_double_app in H as [_ H]. apply no_double_app in H as [H _].
    exact H.
Qed.

Lemma token_shape s :
  safe_uri_token s <> []
  /\ forallb in_class (safe_uri_token s) = true
  /\ plain_underscores (safe_uri_token s) = true
  /\ safe_uri_token (py_strip s) = safe_uri_token s.
Proof.
  assert (safe_uri_token (py_strip s) = safe_uri_token s) as Hs.
  { unfold safe_uri_token, py_strip. rewrite strip_chars_idempotent. reflexivity. }
  split; [|split; [|split; [|exact Hs]]]; unfold safe_uri_token;
    destruct (token_shape_strip (py_strip s)) as [Hc Hp];
    destruct (bool_decide _) eqn:E;
    try (vm_compute; first [discriminate|reflexivity]);
    try assumption.
  apply bool_decide_eq_false in E. exact E.
Qed.

(** X3: the token of [safe_uri] is never empty, has only characters of
    the class of the pattern (word characters, hyphen, period), has no
    underscore at either end and no two underscores in a row; and trimming
    the input beforehand does not change it. *)
Theorem safe_uri_token_shape s :
  safe_uri_token s <> []
  /\ forallb in_class (safe_uri_token s) = true
  /\ plain_underscores (safe_uri_token s) = true
  /\ safe_uri_token (py_strip s) = safe_uri_token s.
Proof. exact (token_shape s). Qed.

(** X4: [parse_coordinates] returns a pair exactly for a string of two
    comma-separated parts that both read as floats once trimmed, and the
    pair is those two floats, whatever their magnitude. *)
Theorem parse_coordinates_pair_iff v lat lon :
  parse_coordinates v = Ok (Some (lat, lon)) <->
  exists s p0 p1, v = PStr s /\ split_on c_comma s = [p0; p1]
    /\ py_float (py_strip p0) = Some lat /\ py_float (py_strip p1) = Some lon.
Proof.
  split.
  - intros H. destruct v as [|s|z|l];
      try (rewrite parse_coordinates_non_str in H by reflexivity; discriminate H).
    destruct (decide (length (split_on c_comma s) = 2%nat)) as [Hl|Hl].
    + destruct (split_on c_comma s) as [|p0 [|p1 [|p2 r]]] eqn:Hs;
        try discriminate Hl.
      assert (s <> []) as Hne by (intros ->; discriminate Hs).
      rewrite (parse_coordinates_parts s p0 p1 Hne Hs) in H.
      exists s, p0, p1. split; [reflexivity|]. split; [exact Hs|].
      destruct (py_float (py_strip p0)); [|discriminate H].
      destruct (py_float (py_strip p1)); [|discriminate H].
      injection H as -> ->. split; reflexivity.
    + rewrite (parse_coordinates_other s Hl) in H. discriminate H.
  - intros (s & p0 & p1 & -> & Hs & H0 & H1).
    assert (s <> []) as Hne by (intros ->; discriminate Hs).
    rewrite (parse_coordinates_parts s p0 p1 Hne Hs), H0, H1. reflexivity.
Qed.

(** ** The loop over the rows *)

Lemma row_loop_grows limit rows : forall idx st,
  graph st ⊆ graph (row_loop limit idx rows st).
Proof.
  induction rows as [|row rows IH]; intros idx st; simpl; [reflexivity|].
  destruct (limit_reached limit idx); [reflexivity|].
  etransitivity; [|apply IH]. rewrite process_row_graph.
  apply (row_body_preserves (fun x => graph st ⊆ x));
    [apply add_keeps_superset|reflexivity].
Qed.

(** X5: the loop only adds to the graph: whatever the rows, a row that
    raises included, and whatever the limit, every triple present
    before a run of the loop is present after it. *)
Theorem converter_never_removes limit idx rows st t :
  t ∈ graph st -> t ∈ graph (row_loop limit idx rows st).
Proof. intros Ht. apply (row_loop_grows limit rows idx st), Ht. Qed.

Lemma row_loop_dict_counts ds : forall idx st,
  success_count (row_loop None idx (dict_row <$> ds) st)
  = (success_count st + Z.of_nat (length ds))%Z
  /\ errors_count (row_loop None idx (dict_row <$> ds) st) = errors_count st.
Proof.
  induction ds as [|d ds IH]; intros idx st.
  - simpl. split; [lia|reflexivity].
  - cbn [fmap list_fmap row_loop limit_reached].
    destruct (IH (idx + 1)%Z (process_row idx (dict_row d) st)) as [Hs He].
    rewrite Hs, He, process_row_dict. simpl. split; [lia|reflexivity].
Qed.

(** X6: without a limit every row is counted once, as mapped or as
    failed; and the records of the reader, which are dicts, never fail:
    all are counted as mapped and the error counter stays at 0. *)
Theorem counters_account_for_rows :
  (forall rows,
     (success_count (convert_csv_to_rdf rows None)
      + errors_count (convert_csv_to_rdf rows None)
      = Z.of_nat (length rows))%Z)
  /\ (forall ds,
        success_count (convert_csv_to_rdf (dict_row <$> ds) None)
        = Z.of_nat (length ds)
        /\ errors_count (convert_csv_to_rdf (dict_row <$> ds) None) = 0%Z).
Proof.
  split.
  - intros rows. unfold convert_csv_to_rdf. rewrite row_loop_counts.
    simpl. lia.
  - intros ds. unfold convert_csv_to_rdf.
    destruct (row_loop_dict_counts ds 1 initial_state) as [Hs He].
    rewrite Hs, He. simpl. split; [lia|reflexivity].
Qed.

(** X7: a limit of 1 or more maps the first rows up to the limit and
    nothing else: the result is that of the converter without limit on
    these rows alone, and when the file has more rows than the limit the
    two counters add up to the limit. *)
Theorem limit_keeps_first_rows n rows :
  (0 < n)%Z ->
  convert_csv_to_rdf rows (Some n) =
    convert_csv_to_rdf (take (Z.to_nat n) rows) None
  /\ ((n < Z.of_nat (length rows))%Z ->
      (success_count (convert_csv_to_rdf rows (Some n))
       + errors_count (convert_csv_to_rdf rows (Some n)) = n)%Z).
Proof. exact (limit_takes_first_rows n rows). Qed.

(** X8: a negative limit stops the loop at the first row, leaving the
    graph empty and the counters at 0; a limit that is at least the number
    of rows changes nothing. *)
Theorem limit_out_of_range n rows :
  ((n < 0)%Z -> convert_csv_to_rdf rows (Some n) = initial_state)
  /\ ((Z.of_nat (length rows) <= n)%Z ->
      convert_csv_to_rdf rows (Some n) = convert_csv_to_rdf rows None).
Proof.
  split; intros Hn; unfold convert_csv_to_rdf.
  - destruct rows as [|row rows]; [reflexivity|].
    cbn [row_loop limit_reached].
    assert (Z.eqb n 0 = false) as -> by (apply Z.eqb_neq; lia).
    assert (Z.ltb n 1 = true) as -> by (apply Z.ltb_lt; lia).
    reflexivity.
  - destruct (Z.eq_dec n 0%Z) as [->|Hz].
    + destruct rows; [reflexivity|simpl in Hn; lia].
    + rewrite row_loop_limit by lia.
      rewrite take_ge by lia. reflexivity.
Qed.

(** ** The shape of the output *)

Ltac mapped_predicate :=
  refine (bool_decide_unpack _ _); vm_compute; exact I.

Lemma map_csv_to_rdf_mapped P row uri :
  (forall p o, p ∈ mapped_predicates -> preserves P (add (uri, p, o))) ->
  preserves P (map_csv_to_rdf row uri).
Proof.
  intros Hadd. unfold map_csv_to_rdf.
  repeat (apply preserves_bind; [apply preserves_lift|intros ?];
          apply preserves_bind;
          [apply preserves_when_str; intros ?
          |intros _]);
    try (apply Hadd; mapped_predicate).
  - apply preserves_bind; [apply preserves_lift|intros [[lat lon]|]];
      [|apply preserves_ret].
    apply preserves_bind; [|intros _]; apply Hadd; mapped_predicate.
  - apply preserves_bind; [apply preserves_lift|intros ?].
    apply preserves_when_str. intros ?. apply Hadd. mapped_predicate.
Qed.

Lemma add_output_triple t :
  output_triple t -> preserves output_graph (add t).
Proof.
  intros Ht g Hg t' Hin. unfold add in Hin. cbn [fst] in Hin.
  apply elem_of_union in Hin as [Hin|Hin].
  - apply elem_of_singleton in Hin. subst t'. exact Ht.
  - apply Hg, Hin.
Qed.

Lemma safe_uri_under_base s : under_base (safe_uri BASE s).
Proof.
  exists (safe_uri_token s). split; [apply token_shape|reflexivity].
Qed.

Lemma row_body_output idx row : preserves output_graph (row_body idx row).
Proof.
  unfold row_body.
  apply preserves_bind; [apply preserves_lift|intros v].
  apply preserves_bind.
  - apply add_output_triple. split; [apply safe_uri_under_base|].
    left. split; reflexivity.
  - intros _. apply map_csv_to_rdf_mapped. intros p o Hp.
    apply add_output_triple. split; [apply safe_uri_under_base|].
    right. exact Hp.
Qed.

Lemma row_loop_output limit rows : forall idx st,
  output_graph (graph st) -> output_graph (graph (row_loop limit idx rows st)).
Proof.
  induction rows as [|row rows IH]; intros idx st Hst; simpl; [exact Hst|].
  destruct (limit_reached limit idx); [exact Hst|].
  apply IH. rewrite process_row_graph. apply row_body_output, Hst.
Qed.

(** X9: every triple of the graph the converter returns is on a resource
    of the base namespace with a non-empty token, and is either the type
    [schema:Place] of the resource or on one of the ten mapped predicates;
    this holds whatever the rows and the limit. *)
Theorem converter_output_shape rows limit t :
  t ∈ graph (convert_csv_to_rdf rows limit) ->
  under_base (subject t)
  /\ ((predicate t = RDF_type /\ t.2 = SCHEMA_Place)
      \/ predicate t ∈ mapped_predicates).
Proof.
  intros Ht. apply (row_loop_output limit rows 1 initial_state); [|exact Ht].
  intros t' Hin. apply elem_of_empty in Hin. contradiction.
Qed.

(** ** The rule table *)

Lemma filter_opt_triples_keep (q : triple -> bool) o f :
  (forall s, List.filter q (f s) = f s) ->
  List.filter q (opt_triples o f) = opt_triples o f.
Proof.
  intros Hf. destruct o as [[|c s]|]; simpl; [reflexivity|apply Hf|reflexivity].
Qed.

Lemma filter_one_off p u p' o :
  p' <> p -> List.filter (on_predicate p) [((u, p', o) : triple)] = [].
Proof.
  intros H. simpl. unfold on_predicate, predicate. simpl.
  rewrite bool_decide_eq_false_2 by exact H. reflexivity.
Qed.

Lemma filter_one_on p u o :
  List.filter (on_predicate p) [((u, p, o) : triple)] = [(u, p, o)].
Proof.
  simpl. unfold on_predicate, predicate. simpl.
  rewrite bool_decide_eq_true_2 by reflexivity. reflexivity.
Qed.

Lemma filter_geo_off p u s :
  WGS84_lat <> p -> WGS84_long <> p ->
  List.filter (on_predicate p) (geo_triples u s) = [].
Proof.
  intros Hlat Hlong. unfold geo_triples.
  destruct (parse_coordinates (PStr s)) as [[[lat lon]|]|e]; try reflexivity.
  simpl. unfold on_predicate, predicate. simpl.
  rewrite !bool_decide_eq_false_2 by assumption. reflexivity.
Qed.

Ltac distinct_terms := refine (bool_decide_unpack _ _); vm_compute; exact I.

Ltac off_predicate :=
  first [ apply filter_one_off; distinct_terms
        | apply filter_geo_off; distinct_terms ].

Ltac filter_rule :=
  intros idx d; unfold row_triples, mapped_triples;
  generalize (row_subject idx d); intros u;
  change (List.filter ?q (?t :: ?l)) with (List.filter q ([t] ++ l));
  rewrite !List.filter_app;
  rewrite (filter_one_off _ u RDF_type) by distinct_terms;
  repeat match goal with
  | |- context [List.filter ?q (opt_triples ?o ?f)] =>
    first
      [ assert (List.filter q (opt_triples o f) = []) as ->
          by (apply filter_opt_triples; intros ?; off_predicate)
      | assert (List.filter q (opt_triples o f) = opt_triples o f) as ->
          by (apply filter_opt_triples_keep; intros ?; apply filter_one_on) ]
  end;
  cbn [app]; rewrite ?app_nil_r; reflexivity.

Lemma filter_column_rules :
  Forall (fun r => forall idx d,
            List.filter (on_predicate r.1.2) (row_triples idx d) =
            opt_triples (field d r.1.1)
              (fun v => [(row_subject idx d, r.1.2, r.2 v)]))
         column_rules.
Proof. unfold column_rules. repeat constructor; cbn [fst snd]; filter_rule. Qed.

Lemma filter_type_triple idx d :
  List.filter (on_predicate RDF_type) (row_triples idx d)
  = [(row_subject idx d, RDF_type, SCHEMA_Place)].
Proof.
  unfold row_triples, mapped_triples.
  generalize (row_subject idx d); intros u.
  change (List.filter ?q (?t :: ?l)) with (List.filter q ([t] ++ l)).
  rewrite !List.filter_app.
  rewrite (filter_one_on RDF_type u).
  repeat match goal with
  | |- context [List.filter ?q (opt_triples ?o ?f)] =>
    assert (List.filter q (opt_triples o f) = []) as ->
      by (apply filter_opt_triples; intros ?; off_predicate)
  end.
  reflexivity.
Qed.

Lemma elem_of_filter_predicate (t : triple) l :
  t ∈ l <-> t ∈ List.filter (on_predicate (predicate t)) l.
Proof.
  rewrite !list_elem_of_In, List.filter_In. unfold on_predicate.
  rewrite bool_decide_eq_true. tauto.
Qed.

(** ** The coordinates and the other triples of a record *)

Lemma geo_members idx d t :
  (t ∈ row_contribution idx (dict_row d) /\ is_geo t = true) <->
  t ∈ opt_triples (field d (py "OSM Point")) (geo_triples (row_subject idx d)).
Proof.
  rewrite row_contribution_dict, elem_of_list_to_set, <- filter_geo_row.
  rewrite !list_elem_of_In, List.filter_In. reflexivity.
Qed.

Lemma no_geo_members idx d :
  opt_triples (field d (py "OSM Point")) (geo_triples (row_subject idx d)) = [] ->
  forall t, t ∈ row_contribution idx (dict_row d) -> is_geo t = false.
Proof.
  intros He t Ht. destruct (is_geo t) eqn:E; [|reflexivity].
  pose proof (proj1 (geo_members idx d t) (conj Ht E)) as H.
  rewrite He in H. apply elem_of_nil in H. contradiction.
Qed.

Lemma rule_member idx d k p f v :
  (k, p, f) ∈ column_rules -> field d k = Some v ->
  (row_subject idx d, p, f v) ∈ row_contribution idx (dict_row d).
Proof.
  intros Hr Hv.
  pose proof (proj1 (Forall_forall _ _) filter_column_rules _ Hr idx d) as Hf.
  cbn [fst snd] in Hf.
  rewrite row_contribution_dict, elem_of_list_to_set, elem_of_filter_predicate.
  change (predicate (row_subject idx d, p, f v)) with p. rewrite Hf.
  rewrite (opt_triples_some _ v _ Hv (clean_value_nonempty _ _ Hv)).
  apply list_elem_of_singleton. reflexivity.
Qed.

(** C8: the latitude and the longitude go together.  The graph the
    converter returns pairs them on every subject, and so does what any
    single row adds.  Of the triples a record adds, those on the two
    coordinate predicates are the latitude and the longitude of the
    subject when the cleaned OSM Point is read as two floats, and there is
    none otherwise.  A record whose OSM Point is [48.97] adds no triple on
    a coordinate predicate, and it adds what it adds without that column:
    the type of its subject and, for every other column whose cleaned
    value is present, the triple of the column. *)
Theorem geo_triples_paired :
  (forall rows limit, geo_paired (graph (convert_csv_to_rdf rows limit)))
  /\ (forall idx row, geo_paired (row_contribution idx row))
  /\ (forall idx d,
       (exists p lat lon,
          field d (py "OSM Point") = Some p
          /\ parse_coordinates (PStr p) = Ok (Some (lat, lon))
          /\ forall t,
               (t ∈ row_contribution idx (dict_row d) /\ is_geo t = true) <->
               (t = (row_subject idx d, WGS84_lat, float_literal lat XSD_decimal)
                \/ t = (row_subject idx d, WGS84_long,
                        float_literal lon XSD_decimal)))
       \/ ((field d (py "OSM Point") = None
            \/ exists p, field d (py "OSM Point") = Some p
               /\ parse_coordinates (PStr p) = Ok None)
           /\ forall t, t ∈ row_contribution idx (dict_row d) ->
                        is_geo t = false))
  /\ (forall idx d,
       d !! py "OSM Point" = Some (PStr (py "48.97")) ->
       (forall t, t ∈ row_contribution idx (dict_row d) -> is_geo t = false)
       /\ row_contribution idx (dict_row d)
          = row_contribution idx (dict_row (delete (py "OSM Point") d))
       /\ (row_subject idx d, RDF_type, SCHEMA_Place)
            ∈ row_contribution idx (dict_row d)
       /\ (forall k p f v,
             (k, p, f) ∈ column_rules -> field d k = Some v ->
             (row_subject idx d, p, f v) ∈ row_contribution idx (dict_row d))).
Proof.
  split; [|split; [|split]].
  - intros rows limit. apply row_loop_paired, geo_paired_empty.
  - intros idx row. apply row_body_paired, geo_paired_empty.
  - intros idx d.
    destruct (field d (py "OSM Point")) as [p|] eqn:Hf.
    + pose proof (clean_value_nonempty _ _ Hf) as Hne.
      destruct (parse_coordinates_total (PStr p)) as [[[lat lon]|] Hp].
      * left. exists p, lat, lon. split; [reflexivity|]. split; [exact Hp|].
        intros t. rewrite geo_members, Hf.
        rewrite (opt_triples_some _ p _ eq_refl Hne).
        unfold geo_triples. rewrite Hp.
        rewrite elem_of_cons, list_elem_of_singleton. reflexivity.
      * right. split; [right; exists p; split; [reflexivity|exact Hp]|].
        apply no_geo_members. rewrite Hf.
        rewrite (opt_triples_some _ p _ eq_refl Hne).
        unfold geo_triples. rewrite Hp. reflexivity.
    + right. split; [left; reflexivity|].
      apply no_geo_members. rewrite Hf. reflexivity.
  - intros idx d Hd.
    assert (field d (py "OSM Point") = Some (py "48.97")) as Hf.
    { unfold field. rewrite Hd. reflexivity. }
    assert (field (delete (py "OSM Point") d) (py "OSM Point") = None) as Hf'.
    { unfold field. rewrite lookup_delete_eq. reflexivity. }
    split; [|split; [|split]].
    + apply no_geo_members. rewrite Hf. reflexivity.
    + rewrite !row_contribution_dict. f_equal.
      unfold row_triples, row_subject, mapped_triples.
      rewrite Hf, Hf'.
      rewrite !field_delete by (intros H; vm_compute in H; discriminate H).
      reflexivity.
    + rewrite row_contribution_dict. apply elem_of_list_to_set.
      unfold row_triples. apply elem_of_cons. left. reflexivity.
    + intros k p f v. apply rule_member.
Qed.

(** X10: the rule table of the mapper, for every record: the graph has
    the type [schema:Place] for the subject of the record and no other
    type; and for each column with one triple (Type, Nom, Commune,
    Département, Région, OSM Id, OSM URL, OSM Date mise à jour) the
    record adds a triple on the predicate of the column exactly when the
    cleaned value is present, its object being built from that value: the
    sanitized URI of the type, the plain literal, the URI of the URL, and
    for the date the literal of type [xsd:date] whose lexical form is the
    one rdflib keeps for the value. *)
Theorem column_rule_lookup idx d :
  (forall o, (row_subject idx d, RDF_type, o) ∈ row_contribution idx (dict_row d)
             <-> o = SCHEMA_Place)
  /\ (forall k p f o,
        (k, p, f) ∈ column_rules ->
        ((row_subject idx d, p, o) ∈ row_contribution idx (dict_row d)
         <-> exists v, field d k = Some v /\ o = f v)).
Proof.
  rewrite row_contribution_dict. split.
  - intros o. rewrite elem_of_list_to_set, elem_of_filter_predicate.
    change (predicate (row_subject idx d, RDF_type, o)) with RDF_type.
    rewrite filter_type_triple, list_elem_of_singleton.
    split; [intros [= ->]; reflexivity|intros ->; reflexivity].
  - intros k p f o Hr.
    pose proof (proj1 (Forall_forall _ _) filter_column_rules _ Hr idx d) as Hf.
    cbn [fst snd] in Hf.
    rewrite elem_of_list_to_set, elem_of_filter_predicate.
    change (predicate (row_subject idx d, p, o)) with p. rewrite Hf.
    destruct (field d k) as [v|] eqn:Hv.
    + rewrite (opt_triples_some _ v _ eq_refl (clean_value_nonempty _ _ Hv)).
      rewrite list_elem_of_singleton. split.
      * intros [= ->]. exists v. split; reflexivity.
      * intros (v' & [= <-] & ->). reflexivity.
    + simpl. split; [intros H; apply elem_of_nil in H; contradiction|].
      intros (v' & H & _). discriminate H.
Qed.

(** ** Records with an OSM Id *)

Lemma row_triples_osm idx idx' d :
  has_osm_id d -> row_triples idx d = row_triples idx' d.
Proof.
  intros [i Hi]. unfold row_triples.
  rewrite (row_subject_osm idx d i Hi), (row_subject_osm idx' d i Hi).
  reflexivity.
Qed.

Lemma row_loop_dict_graph ds : forall idx st,
  Forall has_osm_id ds ->
  graph (row_loop None idx (dict_row <$> ds) st) = records_graph ds ∪ graph st.
Proof.
  induction ds as [|d ds IH]; intros idx st Hds.
  - unfold records_graph. simpl. rewrite union_empty_l_L. reflexivity.
  - apply Forall_cons in Hds as [Hd Hds].
    cbn [fmap list_fmap row_loop limit_reached].
    rewrite (IH _ _ Hds), process_row_dict. cbn [graph].
    rewrite (row_triples_osm idx 0 d Hd). unfold records_graph.
    cbn [fmap list_fmap]. rewrite union_list_cons.
    generalize (list_to_set (row_triples 0 d) : Graph).
    generalize (⋃ ((fun d0 => list_to_set (row_triples 0 d0)) <$> ds) : Graph).
    generalize (graph st). clear. intros g a b. set_solver.
Qed.

Lemma elem_of_records_graph t ds :
  t ∈ records_graph ds <-> exists d, d ∈ ds /\ t ∈ row_triples 0 d.
Proof.
  unfold records_graph. rewrite elem_of_union_list. split.
  - intros (X & HX & Ht). apply list_elem_of_fmap in HX as (d & -> & Hd).
    exists d. split; [exact Hd|]. apply elem_of_list_to_set in Ht. exact Ht.
  - intros (d & Hd & Ht). exists (list_to_set (row_triples 0 d)).
    split; [|apply elem_of_list_to_set, Ht].
    apply list_elem_of_fmap. exists d. split; [reflexivity|exact Hd].
Qed.

(** X11: when every record has an OSM Id, the graph depends on the set
    of the records only: two files with the same records, in any order and
    with any repetitions, give the same graph. *)
Theorem graph_of_identified_records ds ds' :
  Forall has_osm_id ds -> Forall has_osm_id ds' ->
  (forall d, d ∈ ds <-> d ∈ ds') ->
  graph (convert_csv_to_rdf (dict_row <$> ds) None)
  = graph (convert_csv_to_rdf (dict_row <$> ds') None).
Proof.
  intros Hds Hds' Hsame. unfold convert_csv_to_rdf.
  rewrite (row_loop_dict_graph ds 1 _ Hds), (row_loop_dict_graph ds' 1 _ Hds').
  f_equal. apply leibniz_equiv, set_equiv. intros t.
  rewrite !elem_of_records_graph. split; intros (d & Hd & Ht); exists d;
    (split; [apply Hsame, Hd|exact Ht]).
Qed.

(** ** The size of the graph *)

Lemma opt_triples_length o f n :
  (forall s, length (f s) <= n)%nat -> (length (opt_triples o f) <= n)%nat.
Proof.
  intros Hf. destruct o as [[|c s]|]; simpl; [lia|apply Hf|lia].
Qed.

Lemma geo_triples_length u s : (length (geo_triples u s) <= 2)%nat.
Proof.
  unfold geo_triples.
  destruct (parse_coordinates (PStr s)) as [[[lat lon]|]|e]; simpl; lia.
Qed.

Lemma row_triples_length idx d :
  (1 <= length (row_triples idx d) <= 11)%nat.
Proof.
  unfold row_triples, mapped_triples. cbn [length]. rewrite !length_app.
  repeat match goal with
  | |- context [length (opt_triples ?o (geo_triples ?u))] =>
    let H := fresh in
    pose proof (opt_triples_length o (geo_triples u) 2 (geo_triples_length u)) as H;
    generalize dependent (length (opt_triples o (geo_triples u)))
  | |- context [length (opt_triples ?o ?f)] =>
    let H := fresh in
    pose proof (opt_triples_length o f 1 (fun _ => le_n 1)) as H;
    generalize dependent (length (opt_triples o f))
  end.
  intros. lia.
Qed.

Lemma size_list_to_set_le (l : list triple) :
  (size (list_to_set l : Graph) <= length l)%nat.
Proof.
  induction l as [|t l IH].
  - rewrite list_to_set_nil, size_empty. simpl. lia.
  - rewrite list_to_set_cons, size_union_alt, size_singleton. cbn [length].
    pose proof (subseteq_size (list_to_set l ∖ {[t]}) (list_to_set l : Graph)) as H.
    assert (list_to_set l ∖ {[t]} ⊆ (list_to_set l : Graph)) as Hsub by set_solver.
    specialize (H Hsub). lia.
Qed.

Lemma row_loop_size limit ds : forall idx st,
  (size (graph (row_loop limit idx (dict_row <$> ds) st))
   <= size (graph st) + 11 * length ds)%nat.
Proof.
  induction ds as [|d ds IH]; intros idx st.
  - simpl. lia.
  - cbn [fmap list_fmap row_loop length].
    destruct (limit_reached limit idx); [lia|].
    etransitivity; [apply IH|]. rewrite process_row_dict. cbn [graph].
    rewrite size_union_alt.
    pose proof (size_list_to_set_le (row_triples idx d)) as H1.
    pose proof (row_triples_length idx d) as H2.
    pose proof (subseteq_size (graph st ∖ list_to_set (row_triples idx d))
                  (graph st)) as H3.
    assert (graph st ∖ list_to_set (row_triples idx d) ⊆ graph st) as Hsub.
    { generalize (list_to_set (row_triples idx d) : Graph).
      generalize (graph st). clear. intros g a. set_solver. }
    specialize (H3 Hsub). lia.
Qed.

(** X12: a record adds between 1 and 11 triples, and the graph of a file
    has at most 11 triples for each of its records, whatever the limit. *)
Theorem graph_size_bound :
  (forall idx d, (1 <= length (row_triples idx d) <= 11)%nat
                 /\ row_contribution idx (dict_row d)
                    = list_to_set (row_triples idx d))
  /\ (forall ds limit,
        (size (graph (convert_csv_to_rdf (dict_row <$> ds) limit))
         <= 11 * length ds)%nat).
Proof.
  split.
  - intros idx d. split; [apply row_triples_length|apply row_contribution_dict].
  - intros ds limit. unfold convert_csv_to_rdf.
    pose proof (row_loop_size limit ds 1 initial_state) as H.
    cbn [graph initial_state] in H.
    assert (size (∅ : Graph) = 0%nat) as H0 by apply size_empty.
    rewrite H0 in H. lia.
Qed.

(** ** Subjects named by the position *)

Lemma pretty_N_char_digit x : is_digit (N_of_ascii (pretty_N_char x)) = true.
Proof.
  unfold pretty_N_char.
  repeat match goal with
  | |- context [match ?y with _ => _ end] => destruct y
  end; reflexivity.
Qed.

Lemma pretty_N_go_digits x : forall s,
  forallb is_digit (bytes_of_string s) = true ->
  forallb is_digit (bytes_of_string (pretty_N_go x s)) = true.
Proof.
  induction (N.lt_wf_0 x) as [x _ IH]. intros s Hs.
  destruct (N.eq_dec x 0) as [->|Hx]; [rewrite pretty_N_go_0; exact Hs|].
  rewrite pretty_N_go_step by lia. apply IH.
  - apply N.div_lt; lia.
  - simpl. rewrite pretty_N_char_digit, Hs. reflexivity.
Qed.

Lemma pretty_N_digits (x : N) :
  forallb is_digit (bytes_of_string (pretty x)) = true /\ pretty x <> ""%string.
Proof.
  unfold pretty, pretty_N. destruct (decide (x = 0)) as [->|Hx].
  - split; [reflexivity|discriminate].
  - split; [apply pretty_N_go_digits; reflexivity|].
    rewrite pretty_N_go_step by lia. intros H.
    assert (forall y s c, pretty_N_go y (String c s) <> ""%string) as Hne.
    { intros y. induction (N.lt_wf_0 y) as [y _ IHy]. intros t c.
      destruct (N.eq_dec y 0) as [->|Hy]; [rewrite pretty_N_go_0; discriminate|].
      rewrite pretty_N_go_step by lia. apply IHy. apply N.div_lt; lia. }
    exact (Hne _ _ _ H).
Qed.

Lemma bytes_of_string_inj s1 s2 :
  bytes_of_string s1 = bytes_of_string s2 -> s1 = s2.
Proof.
  revert s2. induction s1 as [|a s1 IH]; intros [|b s2]; simpl;
    try discriminate; [reflexivity|].
  intros [= Hab Hs]. f_equal; [|apply IH, Hs].
  rewrite <- (ascii_N_embedding a), <- (ascii_N_embedding b), Hab. reflexivity.
Qed.

Lemma str_of_int_chars z :
  forallb (fun c => is_digit c || (c =? c_hyphen)) (str_of_int z) = true
  /\ str_of_int z <> []
  /\ is_digit (hd 0 (rev (str_of_int z))) = true.
Proof.
  assert (forall x : N, forallb (fun c => is_digit c || (c =? c_hyphen))
                      (bytes_of_string (pretty x)) = true
                    /\ bytes_of_string (pretty x) <> []
                    /\ is_digit (hd 0 (rev (bytes_of_string (pretty x)))) = true)
    as HN.
  { intros x. destruct (pretty_N_digits x) as [Hd Hne].
    assert (bytes_of_string (pretty x) <> []) as Hne'.
    { destruct (pretty x); [contradiction|discriminate]. }
    split; [|split; [exact Hne'|]].
    - apply forallb_forall. intros c Hc.
      rewrite (proj1 (forallb_forall _ _) Hd c Hc). reflexivity.
    - destruct (bytes_of_string (pretty x)) as [|c l _] using rev_ind;
        [contradiction|].
      rewrite rev_app_distr. simpl. rewrite forallb_app in Hd. simpl in Hd.
      apply andb_true_iff in Hd as [_ [Hc _]%andb_true_iff]. exact Hc. }
  unfold str_of_int. destruct z as [|q|q].
  - repeat split; [discriminate].
  - exact (HN (N.pos q)).
  - change (pretty (Z.neg q)) with ("-" +:+ pretty (N.pos q))%string.
    destruct (HN (N.pos q)) as (H1 & H2 & H3).
    change (bytes_of_string ("-" +:+ pretty (N.pos q)))
      with (45 :: bytes_of_string (pretty (N.pos q))).
    split; [simpl; exact H1|]. split; [discriminate|].
    destruct (bytes_of_string (pretty (N.pos q))) as [|c l _] using rev_ind;
      [contradiction|].
    change (45 :: l ++ [c]) with ((45 :: l) ++ [c]).
    rewrite rev_app_distr in *. exact H3.
Qed.

Lemma no_double_without_underscore s :
  forallb (fun c => negb (is_underscore c)) s = true ->
  no_double_underscore s = true.
Proof.
  induction s as [|c s IH]; [reflexivity|]. simpl forallb.
  intros [Hc Hs]%andb_true_iff. rewrite no_double_cons, (IH Hs).
  apply negb_true_iff in Hc. rewrite Hc. reflexivity.
Qed.

Lemma monument_token idx :
  safe_uri_token (py "monument_" ++ str_of_int idx)
  = py "monument_" ++ str_of_int idx.
Proof.
  destruct (str_of_int_chars idx) as (Hch & Hne & Hlast).
  assert (forallb ascii_safe (py "monument_" ++ str_of_int idx) = true) as Hsafe.
  { rewrite forallb_app. apply andb_true_iff. split; [reflexivity|].
    apply forallb_forall. intros c Hc.
    pose proof (proj1 (forallb_forall _ _) Hch c Hc) as H.
    unfold ascii_safe, ascii_alnum. unfold is_digit in H.
    destruct ((48 <=? c) && (c <=? 57)); [reflexivity|].
    simpl in H. rewrite H. rewrite !orb_true_r. reflexivity. }
  apply token_fixed.
  - discriminate.
  - apply strip_chars_fixed, (forallb_ends ascii_safe); [|exact Hsafe].
    exact ascii_safe_not_space.
  - apply forallb_forall. intros c Hc. apply ascii_safe_in_class.
    exact (proj1 (forallb_forall _ _) Hsafe c Hc).
  - unfold plain_underscores.
    apply andb_true_iff. split; [apply andb_true_iff; split|].
    + reflexivity.
    + rewrite rev_app_distr.
      destruct (rev (str_of_int idx)) as [|c l] eqn:E.
      { apply (f_equal (@rev N)) in E. rewrite rev_involutive in E.
        contradiction. }
      simpl. simpl in Hlast. unfold is_underscore, c_underscore.
      unfold is_digit in Hlast. apply negb_true_iff, N.eqb_neq.
      apply andb_true_iff in Hlast as [H1 H2].
      apply N.leb_le in H1, H2. lia.
    + change (py "monument_") with ([109; 111; 110; 117; 109; 101; 110; 116] ++ [95]).
      rewrite <- app_assoc.
      assert (no_double_underscore ([95] ++ str_of_int idx) = true) as Ht.
      { simpl app. rewrite no_double_cons.
        destruct (str_of_int idx) as [|c l] eqn:E; [contradiction|].
        simpl in Hch. apply andb_true_iff in Hch as [Hc Hl].
        assert (is_underscore c = false) as Hcu.
        { unfold is_underscore, c_underscore. apply N.eqb_neq.
          unfold is_digit, c_hyphen in Hc.
          apply orb_true_iff in Hc as [Hc|Hc].
          - apply andb_true_iff in Hc as [H1 H2]. apply N.leb_le in H1, H2. lia.
          - apply N.eqb_eq in Hc. lia. }
        cbn [hd]. rewrite Hcu, andb_false_r. cbn [negb andb].
        apply no_double_without_underscore. cbn [forallb].
        rewrite Hcu. cbn [negb andb]. apply forallb_forall. intros x Hx.
        pose proof (proj1 (forallb_forall _ _) Hl x Hx) as H.
        unfold is_underscore, c_underscore. apply negb_true_iff, N.eqb_neq.
        unfold is_digit, c_hyphen in H.
        apply orb_true_iff in H as [H|H].
        - apply andb_true_iff in H as [H1 H2]. apply N.leb_le in H1, H2. lia.
        - apply N.eqb_eq in H. lia. }
      revert Ht. generalize ([95] ++ str_of_int idx). intros t Ht.
      cbn [app]. rewrite !no_double_cons. cbn [hd].
      rewrite Ht. reflexivity.
Qed.

Lemma URIRef_inj a b : URIRef a = URIRef b -> a = b.
Proof. intros [= H]. exact H. Qed.

Lemma rstrip_cons_keep p c s :
  p c = false -> exists r, rstrip p (c :: s) = c :: r.
Proof.
  intros Hc. induction s as [|x s IH] using rev_ind.
  - exists []. change [c] with ([] ++ [c]). rewrite rstrip_snoc, Hc. reflexivity.
  - change (c :: s ++ [x]) with ((c :: s) ++ [x]). rewrite rstrip_snoc.
    destruct (p x); [exact IH|]. exists (s ++ [x]). reflexivity.
Qed.

Lemma strip_chars_cons_keep p c s :
  p c = false -> exists r, strip_chars p (c :: s) = c :: r.
Proof.
  intros Hc. unfold strip_chars. simpl. rewrite Hc.
  apply rstrip_cons_keep, Hc.
Qed.

Lemma token_keeps_head c s :
  in_class c = true -> is_underscore c = false -> py_isspace c = false ->
  exists r, safe_uri_token (c :: s) = c :: r.
Proof.
  intros Hclass Hus Hsp. unfold safe_uri_token, py_strip.
  destruct (strip_chars_cons_keep py_isspace c s Hsp) as [r1 ->].
  unfold sub_unsafe. cbn [map]. rewrite Hclass.
  rewrite sub_underscores_cons, Hus. cbn [andb].
  destruct (strip_chars_cons_keep is_underscore c
              (sub_underscores
                 (map (fun c0 => if in_class c0 then c0 else c_underscore) r1))
              Hus) as [r2 ->].
  exists r2. reflexivity.
Qed.

(** X13: the subjects named by the position.  Two records without cleaned
    OSM Id have the same subject only at the same position, the token
    [monument_] followed by the position being kept as it is; and a
    record with a cleaned OSM Id never has the subject of a record
    without. *)
Theorem fallback_subjects :
  (forall idx d, field d (py "OSM Id") = None ->
     row_subject idx d = URIRef (BASE ++ py "monument_" ++ str_of_int idx))
  /\ (forall idx idx' d d',
        field d (py "OSM Id") = None -> field d' (py "OSM Id") = None ->
        row_subject idx d = row_subject idx' d' -> idx = idx')
  /\ (forall idx idx' d d',
        has_osm_id d -> field d' (py "OSM Id") = None ->
        row_subject idx d <> row_subject idx' d').
Proof.
  assert (forall idx d, field d (py "OSM Id") = None ->
            row_subject idx d = URIRef (BASE ++ py "monument_" ++ str_of_int idx))
    as Hfb.
  { intros idx d Hd. unfold row_subject, safe_uri. rewrite Hd.
    cbn [monument_id]. rewrite monument_token. reflexivity. }
  split; [exact Hfb|]. split.
  - intros idx idx' d d' Hd Hd' Heq.
    rewrite (Hfb idx d Hd), (Hfb idx' d' Hd') in Heq.
    apply URIRef_inj, (app_inv_head BASE), (app_inv_head (py "monument_")) in Heq.
    unfold str_of_int in Heq.
    apply bytes_of_string_inj in Heq. apply (inj pretty) in Heq. exact Heq.
  - intros idx idx' d d' [i Hi] Hd' Heq.
    rewrite (Hfb idx' d' Hd'), (row_subject_osm idx d i Hi) in Heq.
    unfold safe_uri in Heq. apply URIRef_inj, (app_inv_head BASE) in Heq.
    destruct (token_keeps_head 111 (py "sm_" ++ i)) as [r Hr];
      try reflexivity.
    change (py "osm_" ++ i) with (111 :: py "sm_" ++ i) in Heq.
    rewrite Hr in Heq. discriminate Heq.
Qed.

(** ** What a row adds does not depend on the graph *)

Lemma emits_raise {A B} (m : M A) (k : A -> M B) l e :
  emits m l (Raise e) -> emits (bind m k) l (Raise e).
Proof. intros Hm g. unfold bind. rewrite Hm. reflexivity. Qed.

Lemma emits_lift {A} (r : result A) : emits (lift r) [] r.
Proof. intros g. unfold lift. f_equal. set_solver. Qed.

Lemma emits_some_bind {A B} (m : M A) (k : A -> M B) :
  (exists l r, emits m l r) -> (forall a, exists l r, emits (k a) l r) ->
  exists l r, emits (bind m k) l r.
Proof.
  intros (l1 & [a|e] & Hm) Hk.
  - destruct (Hk a) as (l2 & r & Ha). exists (l1 ++ l2), r.
    apply (emits_bind m k l1 a l2 r Hm Ha).
  - exists l1, (Raise e). apply emits_raise, Hm.
Qed.

Lemma emits_some_when_str o body :
  (forall s, exists l r, emits (body s) l r) ->
  exists l r, emits (when_str o body) l r.
Proof.
  intros Hb. destruct o as [[|c s]|]; simpl;
    [eexists _, _; apply emits_ret|apply Hb|eexists _, _; apply emits_ret].
Qed.

Ltac emits_some :=
  repeat first
    [ apply emits_some_bind; [|intros ?]
    | apply emits_some_when_str; intros ?
    | eexists _, _; apply emits_lift
    | eexists _, _; apply emits_add
    | eexists _, _; apply emits_ret ].

Lemma row_body_emits idx row : exists l r, emits (row_body idx row) l r.
Proof.
  unfold row_body, map_csv_to_rdf. emits_some.
  match goal with
  | |- context [match ?c with _ => _ end] => destruct c as [[? ?]|]
  end; emits_some.
Qed.

Lemma row_body_contribution idx row g :
  row_body idx row g = (row_contribution idx row ∪ g, (row_body idx row ∅).2).
Proof.
  destruct (row_body_emits idx row) as (l & r & He).
  unfold row_contribution. rewrite (He g), (He ∅). cbn [fst snd].
  rewrite union_empty_r_L. reflexivity.
Qed.

Lemma process_row_contribution idx row st :
  graph (process_row idx row st) = row_contribution idx row ∪ graph st.
Proof. rewrite process_row_graph, row_body_contribution. reflexivity. Qed.

Lemma row_loop_contributions rows : forall idx st,
  graph (row_loop None idx rows st)
  = ⋃ (imap (fun i row => row_contribution (idx + Z.of_nat i) row) rows)
    ∪ graph st.
Proof.
  induction rows as [|row rows IH]; intros idx st.
  - simpl. rewrite union_empty_l_L. reflexivity.
  - cbn [row_loop limit_reached imap]. rewrite IH, process_row_contribution.
    rewrite union_list_cons. rewrite Z.add_0_r.
    assert (imap (fun i row0 => row_contribution (idx + 1 + Z.of_nat i) row0) rows
            = imap ((fun i row0 => row_contribution (idx + Z.of_nat i) row0) ∘ S)
                rows) as ->.
    { apply imap_ext. intros i x _.
      change (row_contribution (idx + 1 + Z.of_nat i) x
              = row_contribution (idx + Z.of_nat (S i)) x).
      replace (idx + Z.of_nat (S i))%Z with (idx + 1 + Z.of_nat i)%Z by lia.
      reflexivity. }
    generalize (⋃ imap ((fun i row0 => row_contribution (idx + Z.of_nat i) row0) ∘ S)
                    rows).
    generalize (row_contribution idx row). generalize (graph st).
    clear. intros g a b. set_solver.
Qed.

(** X14: what a row does is independent of the graph it meets: it adds the
    same triples and ends the same way, by returning or by raising,
    whatever the earlier rows have added; so the graph after a row is the
    union of the graph before and of the contribution of the row, and the
    graph of a file is the union of the contributions of its rows, each at
    its position counted from 1. *)
Theorem row_independent_of_graph :
  (forall idx row g,
     row_body idx row g
     = (row_contribution idx row ∪ g, (row_body idx row ∅).2))
  /\ (forall idx row st,
        graph (process_row idx row st) = row_contribution idx row ∪ graph st)
  /\ (forall rows,
        graph (convert_csv_to_rdf rows None)
        = ⋃ (imap (fun i row => row_contribution (1 + Z.of_nat i) row) rows)).
Proof.
  split; [exact row_body_contribution|].
  split; [exact process_row_contribution|].
  intros rows. unfold convert_csv_to_rdf.
  rewrite row_loop_contributions. cbn [graph initial_state].
  rewrite union_empty_r_L. reflexivity.
Qed.

(** ** ASCII input *)

(** X15: on a string of ASCII characters the token is what the
    specification words: runs of characters other than ASCII letters,
    ASCII digits, hyphen, underscore and period become one underscore,
    after trimming and before collapsing and trimming underscores. *)
Theorem safe_uri_token_ascii s :
  forallb (fun c => c <? 128) s = true ->
  safe_uri_token s = spec_token ascii_safe s.
Proof.
  intros Hs. unfold safe_uri_token, spec_token.
  rewrite sub_underscores_replace_runs.
  assert (sub_unsafe (py_strip s)
          = map (fun c => if ascii_safe c then c else c_underscore) (py_strip s))
    as ->; [|reflexivity].
  unfold sub_unsafe. apply map_ext_in. intros c Hc.
  rewrite in_class_ascii; [reflexivity|].
  destruct (strip_chars_sub py_isspace s) as (pre & suf & Hsub).
  fold (py_strip s) in Hsub. rewrite Hsub, !forallb_app in Hs.
  apply andb_true_iff in Hs as [_ [Hs _]%andb_true_iff].
  apply N.ltb_lt. exact (proj1 (forallb_forall _ _) Hs c Hc).
Qed.

End Converter.

(** ** Closed instances of the claims on [safe_uri] *)

Lemma latin1_alnum_not_space c :
  py_isspace c = true -> latin1_alnum c = false.
Proof.
  intros Hs. apply not_true_is_false. intros Ha. revert Hs Ha.
  unfold py_isspace, latin1_alnum. intros Hs Ha.
  to_arith Hs. to_arith Ha. lia.
Qed.

(** C2 as stated fails: [é] is a word character for [\w], so it is kept,
    where the ASCII class of the claim has it replaced. *)
Lemma safe_uri_token_not_ascii_spec :
  safe_uri_token latin1_alnum (py "é") = py "é"
  /\ spec_token ascii_safe (py "é") = py "unknown"
  /\ safe_uri_token latin1_alnum (py "é") <> spec_token ascii_safe (py "é").
Proof. repeat split. vm_compute. discriminate. Qed.

(** C3 as stated fails: [a__b] has safe characters only and its token is
    [a_b]. *)
Lemma safe_uri_token_collapses_safe_string :
  py "a__b" <> []
  /\ forallb ascii_safe (py "a__b") = true
  /\ safe_uri_token latin1_alnum (py "a__b") = py "a_b"
  /\ safe_uri_token latin1_alnum (py "a__b") <> py_strip (py "a__b").
Proof. repeat split; vm_compute; discriminate. Qed.

Lemma safe_uri_token_plain_witness :
  safe_uri_token latin1_alnum (py "Monument-1.a_b") =
    py_strip (py "Monument-1.a_b")
  /\ py_strip (py "Monument-1.a_b") = py "Monument-1.a_b".
Proof.
  apply (safe_uri_token_plain latin1_alnum (py "Monument-1.a_b")).
  - vm_compute. discriminate.
  - vm_compute. reflexivity.
  - vm_compute. reflexivity.
Defined.

Lemma safe_uri_token_idempotent_witness :
  safe_uri_token latin1_alnum
    (safe_uri_token latin1_alnum (py " Île  de_France "))
  = safe_uri_token latin1_alnum (py " Île  de_France ").
Proof.
  apply (safe_uri_token_idempotent latin1_alnum latin1_alnum_not_space).
Defined.

Lemma parse_coordinates_sample :
  parse_coordinates sample_float (PStr (py "48.97, 5.51"))
  = Ok (Some (py "48.97", py "5.51")).
Proof.
  apply (proj1 (proj2 (proj2 (parse_coordinates_absent_iff sample_float)))).
  - vm_compute. reflexivity.
  - vm_compute. reflexivity.
Defined.

(** ** Closed instances of the example *)

(** C1 as stated fails: the triples it lists are 11, not 10. *)
Lemma convert_example_not_ten :
  size (graph (convert_csv_to_rdf latin1_alnum sample_float sample_str sample_date
                 (dict_reader example_csv) None)) = 11%nat
  /\ size (graph (convert_csv_to_rdf latin1_alnum sample_float sample_str sample_date
                    (dict_reader example_csv) None)) <> 10%nat.
Proof.
  rewrite (convert_example_state latin1_alnum sample_float sample_str sample_date
             (py "48.97") (py "5.51")) by (vm_compute; reflexivity).
  cbn [graph]. rewrite example_triples_size. split; [reflexivity|discriminate].
Qed.

Lemma convert_example_witness :
  let st := convert_csv_to_rdf latin1_alnum sample_float sample_str sample_date
              (dict_reader example_csv) None in
  graph st = list_to_set example_triples
  /\ size (graph st) = 11%nat
  /\ Forall (fun t => subject t = example_subject) (elements (graph st))
  /\ success_count st = 1%Z /\ errors_count st = 0%Z.
Proof.
  apply (convert_example latin1_alnum sample_float sample_str sample_date
           (py "48.97") (py "5.51")); vm_compute; reflexivity.
Defined.

(** ** Closed instances of the claims on rows *)




Lemma geo_triples_paired_witness :
  (forall t,
     t ∈ row_contribution latin1_alnum sample_float sample_str sample_date 1
           (dict_row one_number_record) ->
     is_geo t = false)
  /\ row_contribution latin1_alnum sample_float sample_str sample_date 1
       (dict_row one_number_record)
     = row_contribution latin1_alnum sample_float sample_str sample_date 1
         (dict_row (delete (py "OSM Point") one_number_record))
  /\ (row_subject latin1_alnum 1 one_number_record, RDF_type, SCHEMA_Place)
       ∈ row_contribution latin1_alnum sample_float sample_str sample_date 1
           (dict_row one_number_record)
  /\ (forall k p f v,
        (k, p, f) ∈ column_rules latin1_alnum sample_date ->
        field one_number_record k = Some v ->
        (row_subject latin1_alnum 1 one_number_record, p, f v)
          ∈ row_contribution latin1_alnum sample_float sample_str sample_date 1
              (dict_row one_number_record)).
Proof.
  apply (proj2 (proj2 (proj2
           (geo_triples_paired latin1_alnum sample_float sample_str
              sample_date)))).
  vm_compute. reflexivity.
Defined.

Lemma empty_row_type_only_witness :
  let t : triple := (safe_uri latin1_alnum BASE (py "monument_" ++ str_of_int 3),
                     RDF_type, SCHEMA_Place) in
  let st' := process_row latin1_alnum sample_float sample_str sample_date 3
               (dict_row blank_record) initial_state in
  row_triples latin1_alnum sample_float sample_str sample_date 3 blank_record = [t]
  /\ row_contribution latin1_alnum sample_float sample_str sample_date 3
       (dict_row blank_record) = {[ t ]}
  /\ size (row_contribution latin1_alnum sample_float sample_str sample_date 3
             (dict_row blank_record)) = 1%nat
  /\ graph st' = {[ t ]} ∪ graph initial_state
  /\ success_count st' = (success_count initial_state + 1)%Z
  /\ errors_count st' = errors_count initial_state.
Proof.
  apply (empty_row_type_only latin1_alnum sample_float sample_str sample_date 3
           blank_record initial_state).
  repeat constructor; vm_compute; reflexivity.
Defined.

Lemma same_osm_id_same_subject_witness :
  row_subject latin1_alnum 1 example_record
  = row_subject latin1_alnum 8 id_only_record
  /\ row_subject latin1_alnum 1 example_record
     = URIRef (BASE ++ py "osm_12345").
Proof.
  pose proof (same_osm_id_same_subject latin1_alnum sample_float sample_str sample_date
                1 8 example_record id_only_record (py "12345")) as H.
  destruct H as (H1 & H2 & _).
  - vm_compute. reflexivity.
  - vm_compute. reflexivity.
  - split; [exact H1|]. rewrite H2. vm_compute. reflexivity.
Defined.

(** ** Small checks of the string model and of the sanitizers *)

Example py_ascii : py "osm_1" = [111; 115; 109; 95; 49].
Proof. reflexivity. Qed.

Example py_latin : py "Île" = [206; 108; 101].
Proof. reflexivity. Qed.

Example py_euro : py "€" = [8364].
Proof. reflexivity. Qed.

Example str_of_int_12 : str_of_int 12 = py "12".
Proof. vm_compute. reflexivity. Qed.

Example split_two : split_on c_comma (py "48.97, 5.51") = [py "48.97"; py " 5.51"].
Proof. reflexivity. Qed.

Example split_empty : split_on c_comma [] = [[]].
Proof. reflexivity. Qed.

Example strip_both : py_strip (py "  a b ") = py "a b".
Proof. reflexivity. Qed.

Example clean_blank : clean_value (PStr (py "  ")) = None.
Proof. reflexivity. Qed.

Example clean_paris : clean_value (PStr (py " Paris")) = Some (py "Paris").
Proof. reflexivity. Qed.

Example clean_none : clean_value PNone = None.
Proof. reflexivity. Qed.

Example clean_value_non_string : clean_value (PInt 3) = None.
Proof. reflexivity. Qed.

Example safe_uri_token_unsafe_only :
  safe_uri_token latin1_alnum (py " ?! / ") = py "unknown".
Proof. vm_compute. reflexivity. Qed.

Example safe_uri_token_type :
  safe_uri latin1_alnum SCHEMA (py "wayside cross")
  = URIRef (py "http://schema.org/wayside_cross").
Proof. vm_compute. reflexivity. Qed.

Example dict_reader_short_row :
  map (fun r => get r (py "Nom"))
      (dict_reader (py "Type;Nom" ++ [c_newline] ++ py "castle" ++ [c_newline]))
  = [Ok PNone].
Proof. vm_compute. reflexivity. Qed.

(** ** Closed instances of the further properties *)

Lemma safe_uri_token_unknown_witness :
  safe_uri_token latin1_alnum (py " _?_ ") = py "unknown".
Proof.
  apply (safe_uri_token_unknown latin1_alnum (py " _?_ ")).
  vm_compute. reflexivity.
Defined.

Lemma converter_never_removes_witness :
  (URIRef (BASE ++ py "osm_7"), RDF_type, SCHEMA_Place)
  ∈ graph (row_loop latin1_alnum sample_float sample_str sample_date None 2
             [dict_row example_record; failing_row]
             {| graph := {[ (URIRef (BASE ++ py "osm_7"), RDF_type, SCHEMA_Place) ]};
                success_count := 1; errors_count := 0 |}).
Proof.
  apply (converter_never_removes latin1_alnum sample_float sample_str sample_date).
  cbn [graph]. apply elem_of_singleton. reflexivity.
Defined.

Lemma limit_keeps_first_rows_witness :
  convert_csv_to_rdf latin1_alnum sample_float sample_str sample_date
    [dict_row example_record; failing_row] (Some 1%Z)
  = convert_csv_to_rdf latin1_alnum sample_float sample_str sample_date
      (take (Z.to_nat 1) [dict_row example_record; failing_row]) None.
Proof.
  apply (limit_keeps_first_rows latin1_alnum sample_float sample_str sample_date 1
           [dict_row example_record; failing_row]).
  lia.
Defined.

Lemma limit_out_of_range_witness :
  convert_csv_to_rdf latin1_alnum sample_float sample_str sample_date
    [dict_row example_record; failing_row] (Some (-1)%Z) = initial_state
  /\ convert_csv_to_rdf latin1_alnum sample_float sample_str sample_date
       [dict_row example_record; failing_row] (Some 2%Z)
     = convert_csv_to_rdf latin1_alnum sample_float sample_str sample_date
         [dict_row example_record; failing_row] None.
Proof.
  split.
  - apply (limit_out_of_range latin1_alnum sample_float sample_str sample_date (-1)). lia.
  - apply (limit_out_of_range latin1_alnum sample_float sample_str sample_date 2).
    simpl. lia.
Defined.

Lemma converter_output_shape_witness :
  under_base (subject (example_subject, RDF_type, SCHEMA_Place))
  /\ ((predicate (example_subject, RDF_type, SCHEMA_Place) = RDF_type
       /\ (example_subject, RDF_type, SCHEMA_Place).2 = SCHEMA_Place)
      \/ predicate (example_subject, RDF_type, SCHEMA_Place) ∈ mapped_predicates).
Proof.
  apply (converter_output_shape latin1_alnum sample_float sample_str sample_date
           (dict_reader example_csv) None).
  rewrite (convert_example_state latin1_alnum sample_float sample_str sample_date
             (py "48.97") (py "5.51")) by (vm_compute; reflexivity).
  cbn [graph]. apply elem_of_list_to_set. unfold example_triples.
  apply elem_of_cons. left. reflexivity.
Defined.

Lemma column_rule_lookup_witness :
  (row_subject latin1_alnum 1 example_record, SCHEMA_name,
   Literal (py "Monument X") None)
  ∈ row_contribution latin1_alnum sample_float sample_str sample_date 1
      (dict_row example_record).
Proof.
  apply (proj2 (column_rule_lookup latin1_alnum sample_float sample_str sample_date
                  1 example_record)
           (py "Nom") SCHEMA_name (fun v => Literal v None)).
  - unfold column_rules. apply elem_of_cons. right.
    apply elem_of_cons. left. reflexivity.
  - exists (py "Monument X"). split; [vm_compute|]; reflexivity.
Defined.

Lemma graph_of_identified_records_witness :
  graph (convert_csv_to_rdf latin1_alnum sample_float sample_str sample_date
           (dict_row <$> [example_record; id_only_record]) None)
  = graph (convert_csv_to_rdf latin1_alnum sample_float sample_str sample_date
             (dict_row <$> [id_only_record; example_record; example_record])
             None).
Proof.
  apply (graph_of_identified_records latin1_alnum sample_float sample_str sample_date).
  - repeat constructor; eexists; vm_compute; reflexivity.
  - repeat constructor; eexists; vm_compute; reflexivity.
  - intros d. rewrite !elem_of_cons, !elem_of_nil. tauto.
Defined.

Lemma fallback_subjects_witness :
  row_subject latin1_alnum 1 example_record
  <> row_subject latin1_alnum 1 blank_record.
Proof.
  apply (proj2 (proj2 (fallback_subjects latin1_alnum))).
  - eexists. vm_compute. reflexivity.
  - vm_compute. reflexivity.
Defined.

Lemma safe_uri_token_ascii_witness :
  safe_uri_token latin1_alnum (py " wayside cross ")
  = spec_token ascii_safe (py " wayside cross ").
Proof.
  apply (safe_uri_token_ascii latin1_alnum). vm_compute. reflexivity.
Defined.
